(** * tortik_tests/runtests.py: the test-session harness

    A shallow embedding of [src/tortik_tests/runtests.py] and the properties
    of its four pieces of decision logic: the log-record counter
    ([LogCounter]), the skip-reason digest of [TornadoTextTestRunner.run],
    the option callbacks registered by [main] and the warning-filter chain
    that [main] installs.

    Python integers are [Z], [str] is [string] (bytes, compared the way
    Python compares them), a [dict] with string keys is a [gmap string _],
    a [set] of strings is a [gset string].  Code that raises is written in
    a state-and-exception monad over the process state.

    The script is glue around Python's [warnings], [logging], [unittest],
    [textwrap] and [gc] modules and around tornado.  What these do is either
    a parameter of the development (the level constants, the regular
    expression matchers, [textwrap.fill], the attribute table of [gc], what
    a collaborator's configuration entry point raises) or, where a property
    is about their behaviour, a definition marked as modelled from the
    specification (the filter engine, the test loader, the order of a
    session). *)

From stdpp Require Import gmap strings list sorting.
From Stdlib Require Import ZArith Lia Ascii.

Local Open Scope Z_scope.

(** ** [LogCounter] (lines 54-67) *)

Module LogCounter.

(** The one attribute of a [logging.LogRecord] that the counter reads. *)
Record LogRecord := { levelno : Z; getMessage : string }.

(** The instance attributes set by [__init__]. *)
Record t := { warning_count : Z; error_count : Z }.

Section Levels.
(** [logging.ERROR] and [logging.WARNING]: constants of the standard
    [logging] module, taken as parameters. *)
Variables ERROR WARNING : Z.

(** [self.warning_count = self.error_count = 0] *)
Definition __init__ : t := {| warning_count := 0; error_count := 0 |}.

(** [filter(self, record)]: the updated counter and the returned flag. *)
Definition filter (self : t) (record : LogRecord) : t * bool :=
  if ERROR <=? levelno record then
    ({| warning_count := warning_count self;
        error_count := error_count self + 1 |}, true)
  else if WARNING <=? levelno record then
    ({| warning_count := warning_count self + 1;
        error_count := error_count self |}, true)
  else (self, true).

(** The handler calls [filter] once per emitted record, in emission
    order; [observe] is the counter after a whole stream of records. *)
Definition observe (self : t) (records : list LogRecord) : t :=
  foldl (λ c r, fst (filter c r)) self records.

(** Number of records of a stream that satisfy a (boolean) test. *)
Definition count (p : LogRecord → bool) (records : list LogRecord) : Z :=
  Z.of_nat (length (List.filter p records)).

Definition is_error (r : LogRecord) : bool := ERROR <=? levelno r.
Definition is_warning (r : LogRecord) : bool :=
  (WARNING <=? levelno r) && negb (ERROR <=? levelno r).
Definition at_least_warning (r : LogRecord) : bool := WARNING <=? levelno r.

End Levels.

End LogCounter.

(** ** The process: state, exceptions, calls to collaborators *)

(** The exceptions the harness can see.  [LoadError] stands for what the
    test loader raises for a name it cannot resolve (in Python an
    [ImportError] or an [AttributeError]). *)
Inductive exn :=
| RuntimeError (msg : string)
| TypeError (msg : string)
| AttributeError (name : string)
| LoadError (name : string).

(** A function object, known by its qualified name. *)
Inductive callable := Callable (qualname : string).

(** An attribute of the [gc] module: an integer constant such as
    [DEBUG_STATS], or any other object (a function, a string). *)
Inductive attr := IntConst (z : Z) | OtherObject.

(** Calls into the collaborators that [main] configures, with the
    arguments of the call. *)
Inductive call :=
| Logger_setLevel (logger : string) (level : Z)
| AsyncHTTPClient_configure (impl : string) (defaults : gmap string bool)
| HTTPServer_configure (impl : string)
| Resolver_configure (impl : string)
| gc_set_debug (flags : attr)
| locale_setlocale (x : string)
| IOLoop_configure (impl : option string) (time_func : option callable)
| Handler_addFilter.

(** ** The warning-filter engine *)

Module warnings.

Inductive action := error | ignore | default.

(** A registered rule.  A pattern that the registration leaves out is
    [None]: it matches every module, or every message. *)
Record rule := {
  r_action : action;
  r_message : option string;
  r_category : string;
  r_module : option string;
}.

(** A warning event: the category (the warning class together with its base
    classes, as named in its [__mro__]), the qualified name of the module
    that raised it, and its text. *)
Record event := {
  category : list string;
  module : string;
  message : string;
}.

Section Engine.
(** The regular-expression matcher for module names and the
    (case-insensitive) one for message texts: [pattern], then [text]. *)
Variables module_match message_match : string → string → bool.

Definition issubclass (category : list string) (cat : string) : bool :=
  bool_decide (cat ∈ category).

Definition pattern_matches (m : string → string → bool)
    (pat : option string) (text : string) : bool :=
  match pat with None => true | Some re => m re text end.

(** Modelled from the spec: the test that a rule's category, module and
    message all match an event; the matcher itself is part of Python's
    [warnings] module, which is not in the repository. *)
Definition matches (ev : event) (r : rule) : bool :=
  pattern_matches message_match (r_message r) (message ev)
  && issubclass (category ev) (r_category r)
  && pattern_matches module_match (r_module r) (module ev).

(** Modelled from the spec: [registerRule], which appends the rule to the
    ordered rule list (Python's [warnings.filterwarnings], missing from
    the repository). *)
Definition registerRule (rules : list rule) (r : rule) : list rule :=
  rules ++ [r].

(** Modelled from the spec: [classify], which scans the rule list from
    the most recently registered rule to the least recently registered
    one and returns the action of the first rule that matches, else the
    ambient default (the filter search of Python's [warnings] module,
    missing from the repository). *)
Fixpoint scan (ambient : action) (newest_first : list rule) (ev : event)
    : action :=
  match newest_first with
  | [] => ambient
  | r :: older => if matches ev r then r_action r else scan ambient older ev
  end.

Definition classify (ambient : action) (rules : list rule) (ev : event)
    : action :=
  scan ambient (reverse rules) ev.
End Engine.

End warnings.

Record options_t := {
  httpclient : option string;
  httpserver : option string;
  ioloop : option string;
  ioloop_time_monotonic : bool;
  resolver : option string;
  debug_gc : list string;
  locale : option string;
}.

(** The state of the process that [main] reads and writes. *)
Record process := {
  filters : list warnings.rule;      (* the warning filters, oldest first *)
  options : options_t;               (* [tornado.options.options] *)
  calls : list call;                 (* calls made so far, oldest first *)
  executed : list string;            (* test cases run so far *)
  stream : list string;              (* what was written to the runner's stream *)
}.

(** Computations that read and write the process and may raise. *)
Definition M (A : Type) : Type := process → process * (exn + A).

Definition raise {A} (e : exn) : M A := λ p, (p, inl e).

#[global] Instance M_ret : MRet M := λ A a p, (p, inr a).
#[global] Instance M_bind : MBind M := λ A B k m p,
  match m p with
  | (p', inl e) => (p', inl e)
  | (p', inr a) => k a p'
  end.

Definition get_options : M options_t := λ p, (p, inr (options p)).

Definition set_filters (fs : list warnings.rule) : M unit := λ p,
  ({| filters := fs; options := options p; calls := calls p;
      executed := executed p; stream := stream p |}, inr ()).

Definition set_options (o : options_t) : M unit := λ p,
  ({| filters := filters p; options := o; calls := calls p;
      executed := executed p; stream := stream p |}, inr ()).

Definition log_call (c : call) : M unit := λ p,
  ({| filters := filters p; options := options p; calls := calls p ++ [c];
      executed := executed p; stream := stream p |}, inr ()).

Definition mark_executed (test : string) : M unit := λ p,
  ({| filters := filters p; options := options p; calls := calls p;
      executed := executed p ++ [test]; stream := stream p |}, inr ()).

(** [self.stream.write(text)] *)
Definition write (text : string) : M unit := λ p,
  ({| filters := filters p; options := options p; calls := calls p;
      executed := executed p; stream := stream p ++ [text] |}, inr ()).

(** ** The harness *)

Definition TEST_MODULES : list string := [
  "tortik_tests.pep8_test";
  "tortik_tests.import_test";
  "tortik_tests.debug_test";
  "tortik_tests.dumper_test";
  "tortik_tests.exceptions_test";
  "tortik_tests.make_request_test";
  "tortik_tests.util_test";
  "tortik_tests.postprocessor_test";
  "tortik_tests.preprocessor_test"
].

(** What a test case does when it is run. *)
Inductive outcome :=
| passed
| failed (diag : string)
| errored (diag : string)
| skip (reason : string).

(** [unittest.TestResult]: each list pairs a test with its text. *)
Record TestResult := {
  skipped : list (string * string);
  failures : list (string * string);
  errors : list (string * string);
  testsRun : nat;
}.

(** An option given on the command line, with its parsed value. *)
Inductive setting :=
| set_httpclient (s : string)
| set_httpserver (s : string)
| set_ioloop (s : string)
| set_ioloop_time_monotonic (b : bool)
| set_resolver (s : string)
| set_debug_gc (values : list string)
| set_locale (x : string).

(** The newline character, Python's ["\n"]. *)
Definition newline : string := String "010"%char "".

(** [sep.join(items)] *)
Definition join (sep : string) (items : list string) : string :=
  match items with
  | [] => ""
  | x :: rest => foldl (λ acc y, acc +:+ sep +:+ y) x rest
  end.

(** [sorted(s)] for a set of strings: the elements in increasing order. *)
Definition sorted (s : gset string) : list string :=
  merge_sort String.le (elements s).

(** Truth value of an optional string: [None] and [""] are false. *)
Definition truthy (s : option string) : bool :=
  match s with
  | None => false
  | Some x => negb (bool_decide (x = ""))
  end.

#[global] Instance callable_eq_dec : EqDecision callable.
Proof. solve_decision. Defined.

Section Harness.
(** What the collaborators do when called: [raises c] is the exception
    that call [c] raises, if it raises one. *)
Variable raises : call → option exn.
(** [tornado.platform.auto.monotonic_time], [None] where the platform has
    no monotonic clock. *)
Variable monotonic_time : option callable.
(** [getattr(gc, name)]; [None] when the module has no such attribute. *)
Variable gc_attribute : string → option attr.
(** [textwrap.fill]. *)
Variable textwrap_fill : string → string.
(** [logging.CRITICAL]. *)
Variable CRITICAL : Z.

(** A call to a collaborator: it is made, then raises or returns. *)
Definition invoke (c : call) : M unit :=
  log_call c;;
  match raises c with
  | Some e => raise e
  | None => mret ()
  end.

(** *** [TornadoTextTestRunner.run] (lines 39-51) *)

Definition skip_reasons (result : TestResult) : gset string :=
  list_to_set (snd <$> skipped result).

Definition digest (result : TestResult) : string :=
  textwrap_fill
    ("Some tests were skipped because: "
       +:+ join ", " (sorted (skip_reasons result))).

Section Runner.
(** [unittest.TextTestRunner.run], the method that [run] overrides. *)
Variable super_run : list string → M TestResult.

Definition run (test : list string) : M TestResult :=
  result ← super_run test;
  (if bool_decide (skipped result ≠ [])
   then write (digest result);; write newline
   else mret ());;
  mret result.
End Runner.

(** *** The option callbacks of [main] (lines 133-160) *)

(** [getattr(gc, v)] *)
Definition getattr_gc (v : string) : M attr :=
  match gc_attribute v with
  | Some a => mret a
  | None => raise (AttributeError v)
  end.

(** [operator.or_] *)
Definition or_ (a b : attr) : M attr :=
  match a, b with
  | IntConst x, IntConst y => mret (IntConst (Z.lor x y))
  | _, _ => raise (TypeError "unsupported operand type(s) for |")
  end.

(** The loop of [reduce(operator.or_, ...)] over the generator
    [(getattr(gc, v) for v in values)]: each name is looked up when the
    loop reaches it. *)
Fixpoint reduce_or_ (value : attr) (values : list string) : M attr :=
  match values with
  | [] => mret value
  | v :: rest =>
      element ← getattr_gc v;
      value' ← or_ value element;
      reduce_or_ value' rest
  end.

(** The callback of [debug_gc]. *)
Definition debug_gc_callback (values : list string) : M unit :=
  match values with
  | [] => raise (TypeError "reduce() of empty sequence with no initial value")
  | v :: rest =>
      first ← getattr_gc v;
      flags ← reduce_or_ first rest;
      invoke (gc_set_debug flags)
  end.

(** The callback of [httpclient]. *)
Definition httpclient_callback (s : string) : M unit :=
  invoke (AsyncHTTPClient_configure s {[ "allow_ipv6" := false ]}).

(** The callback that [define] attaches to each option. *)
Definition callback (x : setting) : M unit :=
  match x with
  | set_httpclient s => httpclient_callback s
  | set_httpserver s => invoke (HTTPServer_configure s)
  | set_ioloop _ => mret ()
  | set_ioloop_time_monotonic _ => mret ()
  | set_resolver s => invoke (Resolver_configure s)
  | set_debug_gc values => debug_gc_callback values
  | set_locale x => invoke (locale_setlocale x)
  end.

(** *** [configure_ioloop] (lines 162-171) *)

Definition configure_ioloop : M unit :=
  o ← get_options;
  kwargs ← (if ioloop_time_monotonic o then
              match monotonic_time with
              | None => raise (RuntimeError "monotonic clock not found")
              | Some f => mret (Some f)
              end
            else mret None);
  if truthy (ioloop o) || bool_decide (is_Some kwargs)
  then invoke (IOLoop_configure (ioloop o) kwargs)
  else mret ().

(** *** Loading and running the suite *)

(** The test modules that exist: [resolve name] is the list of the test
    cases of module [name], [None] when the name resolves to no module. *)
Variable resolve : string → option (list string).
(** What each test case does when run. *)
Variable run_case : string → outcome.
(** The standard report that the text runner writes for a result. *)
Variable standard_output : TestResult → list string.

(** Modelled from the spec: [loadSuite], which resolves each identifier to
    its test cases and for which an unresolvable identifier is a fatal load
    error (the loader is [unittest.defaultTestLoader], missing from the
    repository). *)
Fixpoint loadTestsFromNames (names : list string) : M (list string) :=
  match names with
  | [] => mret []
  | name :: rest =>
      match resolve name with
      | None => raise (LoadError name)
      | Some cases =>
          suite ← loadTestsFromNames rest;
          mret (cases ++ suite)
      end
  end.

(** [all()] (lines 35-36) *)
Definition all : M (list string) := loadTestsFromNames TEST_MODULES.

Definition record_outcome (test : string) (o : outcome) (r : TestResult)
    : TestResult :=
  match o with
  | passed =>
      {| skipped := skipped r; failures := failures r; errors := errors r;
         testsRun := S (testsRun r) |}
  | failed diag =>
      {| skipped := skipped r; failures := failures r ++ [(test, diag)];
         errors := errors r; testsRun := S (testsRun r) |}
  | errored diag =>
      {| skipped := skipped r; failures := failures r;
         errors := errors r ++ [(test, diag)]; testsRun := S (testsRun r) |}
  | skip reason =>
      {| skipped := skipped r ++ [(test, reason)]; failures := failures r;
         errors := errors r; testsRun := S (testsRun r) |}
  end.

Fixpoint run_cases (suite : list string) (r : TestResult) : M TestResult :=
  match suite with
  | [] => mret r
  | test :: rest =>
      mark_executed test;;
      run_cases rest (record_outcome test (run_case test) r)
  end.

Fixpoint write_all (lines : list string) : M unit :=
  match lines with
  | [] => mret ()
  | l :: rest => write l;; write_all rest
  end.

(** Modelled from the spec: the runner executes every test case of the
    suite in order, records the outcome of each, and writes the standard
    result output ([unittest.TextTestRunner.run], missing from the
    repository). *)
Definition TextTestRunner_run (suite : list string) : M TestResult :=
  result ← run_cases suite
    {| skipped := []; failures := []; errors := []; testsRun := 0 |};
  write_all (standard_output result);;
  mret result.

(** *** [main] (lines 70-190) *)

Definition store (x : setting) (o : options_t) : options_t :=
  match x with
  | set_httpclient s =>
      {| httpclient := Some s; httpserver := httpserver o; ioloop := ioloop o;
         ioloop_time_monotonic := ioloop_time_monotonic o;
         resolver := resolver o; debug_gc := debug_gc o; locale := locale o |}
  | set_httpserver s =>
      {| httpclient := httpclient o; httpserver := Some s; ioloop := ioloop o;
         ioloop_time_monotonic := ioloop_time_monotonic o;
         resolver := resolver o; debug_gc := debug_gc o; locale := locale o |}
  | set_ioloop s =>
      {| httpclient := httpclient o; httpserver := httpserver o;
         ioloop := Some s;
         ioloop_time_monotonic := ioloop_time_monotonic o;
         resolver := resolver o; debug_gc := debug_gc o; locale := locale o |}
  | set_ioloop_time_monotonic b =>
      {| httpclient := httpclient o; httpserver := httpserver o;
         ioloop := ioloop o; ioloop_time_monotonic := b;
         resolver := resolver o; debug_gc := debug_gc o; locale := locale o |}
  | set_resolver s =>
      {| httpclient := httpclient o; httpserver := httpserver o;
         ioloop := ioloop o;
         ioloop_time_monotonic := ioloop_time_monotonic o;
         resolver := Some s; debug_gc := debug_gc o; locale := locale o |}
  | set_debug_gc values =>
      {| httpclient := httpclient o; httpserver := httpserver o;
         ioloop := ioloop o;
         ioloop_time_monotonic := ioloop_time_monotonic o;
         resolver := resolver o; debug_gc := values; locale := locale o |}
  | set_locale x =>
      {| httpclient := httpclient o; httpserver := httpserver o;
         ioloop := ioloop o;
         ioloop_time_monotonic := ioloop_time_monotonic o;
         resolver := resolver o; debug_gc := debug_gc o; locale := Some x |}
  end.

(** The options as [define] leaves them (lines 133-160). *)
Definition defaults : options_t :=
  {| httpclient := None; httpserver := None; ioloop := None;
     ioloop_time_monotonic := false; resolver := None; debug_gc := [];
     locale := None |}.

(** Each option of the command line is stored, then its callback runs. *)
Fixpoint parse_args (argv : list setting) : M unit :=
  match argv with
  | [] => mret ()
  | x :: rest =>
      o ← get_options;
      set_options (store x o);;
      callback x;;
      parse_args rest
  end.

(** The two callbacks given to [add_parse_callback] (lines 173-176), in
    the order of their registration. *)
Definition run_parse_callbacks : M unit :=
  configure_ioloop;;
  invoke Handler_addFilter.

(** Modelled from the spec: option parsing completes, then the registered
    callbacks fire, then the suite is loaded and run by the runner class
    that [main] passes ([tornado.testing.main], missing from the
    repository). *)
Definition tornado_testing_main (argv : list setting) : M TestResult :=
  parse_args argv;;
  run_parse_callbacks;;
  suite ← all;
  run TextTestRunner_run suite.

(** [warnings.filterwarnings(action, message, category, module)] *)
Definition filterwarnings (action : warnings.action)
    (message : option string) (category : string) (module : option string)
    : M unit :=
  λ p, set_filters
         (warnings.registerRule (filters p)
            {| warnings.r_action := action; warnings.r_message := message;
               warnings.r_category := category;
               warnings.r_module := module |}) p.

Definition main (argv : list setting) : M TestResult :=
  filterwarnings warnings.error None "Warning" None;;
  filterwarnings warnings.ignore None "ImportWarning" None;;
  filterwarnings warnings.ignore None "DeprecationWarning" None;;
  filterwarnings warnings.error None "DeprecationWarning" (Some "tornado\..*");;
  filterwarnings warnings.ignore (Some "gen.Task is deprecated")
    "DeprecationWarning" (Some "tornado\..*");;
  filterwarnings warnings.ignore (Some "StackContext is deprecated")
    "DeprecationWarning" (Some "tornado\..*");;
  filterwarnings warnings.ignore (Some "@asynchronous is deprecated")
    "DeprecationWarning" (Some "tornado\..*");;
  filterwarnings warnings.ignore (Some "callback arguments are deprecated")
    "DeprecationWarning" (Some "tornado\..*");;
  filterwarnings warnings.ignore None "PendingDeprecationWarning" None;;
  filterwarnings warnings.error None "PendingDeprecationWarning"
    (Some "tornado\..*");;
  filterwarnings warnings.ignore (Some "Please use assert.* instead")
    "DeprecationWarning" None;;
  filterwarnings warnings.ignore (Some "Please use assert.* instead")
    "PendingDeprecationWarning" None;;
  filterwarnings warnings.ignore None "BytesWarning" (Some "twisted\..*");;
  invoke (Logger_setLevel "tornado.access" CRITICAL);;
  set_options defaults;;
  tornado_testing_main argv.
End Harness.

(** ** Notions used in the statements *)

(** [keeps f m]: the computation [m] leaves the component [f] of the process
    as it was, whether it returns or raises. *)
Definition keeps {X A} (f : process → X) (m : M A) : Prop :=
  ∀ p, f (fst (m p)) = f p.

(** [aborts m p]: from [p], the computation [m] raises, and no test case has
    been run by then. *)
Definition aborts {A} (m : M A) (p : process) : Prop :=
  ∃ e p', m p = (p', inl e) ∧ executed p' = executed p.

(** The options as the command line resolves them. *)
Definition resolved (o : options_t) (argv : list setting) : options_t :=
  foldl (λ o x, store x o) o argv.

(** The rules registered by lines 79-129, in the order of registration. *)
Definition main_filters : list warnings.rule :=
  let rule a msg cat mod_ :=
    {| warnings.r_action := a; warnings.r_message := msg;
       warnings.r_category := cat; warnings.r_module := mod_ |} in
  [ rule warnings.error None "Warning" None;
    rule warnings.ignore None "ImportWarning" None;
    rule warnings.ignore None "DeprecationWarning" None;
    rule warnings.error None "DeprecationWarning" (Some "tornado\..*");
    rule warnings.ignore (Some "gen.Task is deprecated")
      "DeprecationWarning" (Some "tornado\..*");
    rule warnings.ignore (Some "StackContext is deprecated")
      "DeprecationWarning" (Some "tornado\..*");
    rule warnings.ignore (Some "@asynchronous is deprecated")
      "DeprecationWarning" (Some "tornado\..*");
    rule warnings.ignore (Some "callback arguments are deprecated")
      "DeprecationWarning" (Some "tornado\..*");
    rule warnings.ignore None "PendingDeprecationWarning" None;
    rule warnings.error None "PendingDeprecationWarning" (Some "tornado\..*");
    rule warnings.ignore (Some "Please use assert.* instead")
      "DeprecationWarning" None;
    rule warnings.ignore (Some "Please use assert.* instead")
      "PendingDeprecationWarning" None;
    rule warnings.ignore None "BytesWarning" (Some "twisted\..*") ].

(** Reading a joined text back: the pieces of [text] between the
    occurrences of the separator [", "], from left to right.  This is not
    code of the script; the statements about the digest use it to say what
    a reader finds in the written text. *)
Definition push_char (c : ascii) (pieces : list string) : list string :=
  match pieces with
  | [] => [String c EmptyString]
  | piece :: rest => String c piece :: rest
  end.

Fixpoint listed (text : string) : list string :=
  match text with
  | EmptyString => [EmptyString]
  | String c rest =>
      match rest with
      | String d rest' =>
          if Ascii.eqb c ","%char && Ascii.eqb d " "%char
          then EmptyString :: listed rest'
          else push_char c (listed rest)
      | EmptyString => push_char c (listed rest)
      end
  end.

(** Whether the separator [", "] occurs in a string. *)
Fixpoint has_separator (r : string) : bool :=
  match r with
  | EmptyString => false
  | String c rest =>
      match rest with
      | String d _ =>
          (Ascii.eqb c ","%char && Ascii.eqb d " "%char) || has_separator rest
      | EmptyString => false
      end
  end.

(** ** Instances for the examples *)

(** A matcher for the examples.  The patterns of [main] are made of literal
    characters, [.] (any character), a character escaped by a backslash, and
    such an item followed by a star; a match starts at the first character of
    the text and may stop anywhere, as [re.match] does. *)
Module re.

Inductive atom := any_char | literal (c : ascii).

Fixpoint compile (pattern : string) : list (atom * bool) :=
  match pattern with
  | EmptyString => []
  | String c rest =>
      if Ascii.eqb c "\"%char then
        match rest with
        | EmptyString => [(literal c, false)]
        | String d rest' =>
            match rest' with
            | String s rest'' =>
                if Ascii.eqb s "*"%char then (literal d, true) :: compile rest''
                else (literal d, false) :: compile rest'
            | EmptyString => [(literal d, false)]
            end
        end
      else
        let a := if Ascii.eqb c "."%char then any_char else literal c in
        match rest with
        | String s rest' =>
            if Ascii.eqb s "*"%char then (a, true) :: compile rest'
            else (a, false) :: compile rest
        | EmptyString => [(a, false)]
        end
  end.

(** Lower case of an ASCII letter, for patterns compiled with [re.I]. *)
Definition lower (c : ascii) : ascii :=
  let n := nat_of_ascii c in
  if (65 <=? n)%nat && (n <=? 90)%nat then ascii_of_nat (n + 32) else c.

Definition accepts (ignore_case : bool) (a : atom) (c : ascii) : bool :=
  match a with
  | any_char => negb (Ascii.eqb c "010"%char)
  | literal d =>
      if ignore_case then Ascii.eqb (lower d) (lower c) else Ascii.eqb d c
  end.

Fixpoint match_items (ignore_case : bool) (items : list (atom * bool))
    (text : string) : bool :=
  match items with
  | [] => true
  | (a, false) :: rest =>
      match text with
      | String c t => accepts ignore_case a c && match_items ignore_case rest t
      | EmptyString => false
      end
  | (a, true) :: rest =>
      (fix loop (text : string) : bool :=
         match_items ignore_case rest text
         || match text with
            | String c t => accepts ignore_case a c && loop t
            | EmptyString => false
            end) text
  end.

Definition module_match (pattern text : string) : bool :=
  match_items false (compile pattern) text.

Definition message_match (pattern text : string) : bool :=
  match_items true (compile pattern) text.

End re.

Module Examples.

Definition raises (c : call) : option exn := None.

(** Some attributes of [gc]. *)
Definition gc_attribute (v : string) : option attr :=
  if decide (v = "DEBUG_STATS") then Some (IntConst 1)
  else if decide (v = "DEBUG_COLLECTABLE") then Some (IntConst 2)
  else if decide (v = "DEBUG_UNCOLLECTABLE") then Some (IntConst 4)
  else if decide (v = "DEBUG_SAVEALL") then Some (IntConst 32)
  else if decide (v = "collect") then Some OtherObject
  else None.

Definition fill (text : string) : string := text.

(** Every module of [TEST_MODULES] has two test cases. *)
Definition resolve (name : string) : option (list string) :=
  Some [name +:+ ".test_a"; name +:+ ".test_b"].

(** The same, with [tortik_tests.util_test] missing. *)
Definition resolve_but_one (name : string) : option (list string) :=
  if decide (name = "tortik_tests.util_test") then None else resolve name.

Definition run_case (test : string) : outcome :=
  if decide (test = "tortik_tests.pep8_test.test_a") then skip "no pep8"
  else if decide (test = "tortik_tests.debug_test.test_b") then skip "no lxml"
  else if decide (test = "tortik_tests.dumper_test.test_a") then skip "no lxml"
  else passed.

Definition standard_output (r : TestResult) : list string := ["OK"].

Definition p0 : process :=
  {| filters := []; options := defaults; calls := []; executed := [];
     stream := [] |}.

Definition record (levelno : Z) : LogCounter.LogRecord :=
  {| LogCounter.levelno := levelno; LogCounter.getMessage := "" |}.

Definition warning (category : string) (module message : string)
    : warnings.event :=
  {| warnings.category := [category; "Warning"; "Exception"];
     warnings.module := module; warnings.message := message |}.

Definition classify_main (ev : warnings.event) : warnings.action :=
  warnings.classify re.module_match re.message_match warnings.default
    main_filters ev.

End Examples.

(** * Lemmas *)

(** ** Counting records *)

Section LogCounterFacts.
Variables ERROR WARNING : Z.

Import LogCounter.

Abbreviation filter := (LogCounter.filter ERROR WARNING).
Abbreviation observe := (LogCounter.observe ERROR WARNING).
Abbreviation is_error := (LogCounter.is_error ERROR).
Abbreviation is_warning := (LogCounter.is_warning ERROR WARNING).
Abbreviation at_least_warning := (LogCounter.at_least_warning WARNING).

Lemma count_cons p r rs :
  count p (r :: rs) = (if p r then 1 else 0) + count p rs.
Proof.
  unfold count. simpl. destruct (p r); simpl length; lia.
Qed.

Lemma observe_counts self records :
  error_count (observe self records)
    = error_count self + count is_error records ∧
  warning_count (observe self records)
    = warning_count self + count is_warning records.
Proof.
  revert self. induction records as [|r rs IH]; intros self.
  - unfold count. simpl. lia.
  - unfold observe in *. simpl foldl.
    destruct (IH (fst (filter self r))) as [He Hw].
    rewrite He, Hw, !count_cons.
    unfold filter, is_error, is_warning.
    destruct (ERROR <=? levelno r), (WARNING <=? levelno r); simpl; lia.
Qed.

Lemma count_Permutation p records records' :
  records' ≡ₚ records → count p records' = count p records.
Proof.
  induction 1 as [|x l l' _ IH|x y l|l l' l'' _ IH1 _ IH2].
  - reflexivity.
  - rewrite !count_cons, IH. reflexivity.
  - rewrite !count_cons. lia.
  - congruence.
Qed.

Lemma count_split records :
  WARNING ≤ ERROR →
  count is_warning records + count is_error records
    = count at_least_warning records.
Proof.
  intros Hle. induction records as [|r rs IH].
  - reflexivity.
  - rewrite !count_cons, <- IH.
    unfold is_warning, is_error, at_least_warning.
    destruct (Z.leb_spec ERROR (levelno r)), (Z.leb_spec WARNING (levelno r));
      simpl; lia.
Qed.

End LogCounterFacts.

(** ** Running computations *)

Lemma run_bind {A B} (m : M A) (k : A → M B) (p : process) :
  (m ≫= k) p =
    match m p with
    | (p', inl e) => (p', inl e)
    | (p', inr a) => k a p'
    end.
Proof. reflexivity. Qed.

Lemma run_bind_ok {A B} (m : M A) (k : A → M B) p p' a :
  m p = (p', inr a) → (m ≫= k) p = k a p'.
Proof. intros H. rewrite run_bind, H. reflexivity. Qed.

Lemma run_bind_raise {A B} (m : M A) (k : A → M B) p p' e :
  m p = (p', inl e) → (m ≫= k) p = (p', inl e).
Proof. intros H. rewrite run_bind, H. reflexivity. Qed.

Lemma keeps_ret {X A} (f : process → X) (a : A) : keeps f (mret a).
Proof. intros p. reflexivity. Qed.

Lemma keeps_raise {X A} (f : process → X) (e : exn) : keeps f (@raise A e).
Proof. intros p. reflexivity. Qed.

Lemma keeps_bind {X A B} (f : process → X) (m : M A) (k : A → M B) :
  keeps f m → (∀ a, keeps f (k a)) → keeps f (m ≫= k).
Proof.
  intros Hm Hk p. rewrite run_bind. specialize (Hm p).
  destruct (m p) as [p' [e|a]]; simpl in *; [exact Hm|].
  rewrite Hk. exact Hm.
Qed.

Lemma keeps_get_options {X} (f : process → X) : keeps f get_options.
Proof. intros p. reflexivity. Qed.

Create HintDb keeps discriminated.
#[global] Hint Resolve keeps_ret keeps_raise keeps_bind keeps_get_options : keeps.

(** ** The sorted skip reasons *)

Lemma sorted_elem_of (s : gset string) (x : string) : x ∈ sorted s ↔ x ∈ s.
Proof.
  unfold sorted. rewrite merge_sort_Permutation. apply elem_of_elements.
Qed.

Lemma sorted_NoDup (s : gset string) : NoDup (sorted s).
Proof.
  unfold sorted. rewrite merge_sort_Permutation. apply NoDup_elements.
Qed.

Lemma sorted_StronglySorted (s : gset string) :
  StronglySorted String.le (sorted s).
Proof.
  apply Sorted_StronglySorted; [apply _|]. apply Sorted_merge_sort; apply _.
Qed.

Lemma elem_of_skip_reasons (result : TestResult) (reason : string) :
  reason ∈ skip_reasons result ↔ ∃ test, (test, reason) ∈ skipped result.
Proof.
  unfold skip_reasons. rewrite elem_of_list_to_set, list_elem_of_fmap.
  split.
  - intros [[t r] [-> H]]. exists t. exact H.
  - intros [t H]. exists (t, reason). split; [reflexivity | exact H].
Qed.

(** ** What each part of [main] leaves alone *)

Ltac keeps_step :=
  first
    [ progress intros
    | apply keeps_ret
    | apply keeps_raise
    | apply keeps_get_options
    | solve [auto with keeps]
    | apply keeps_bind
    | match goal with
      | |- keeps _ (match ?x with _ => _ end) => destruct x
      | |- keeps _ (if ?b then _ else _) => destruct b
      end ].
Ltac keeps := repeat keeps_step.

Section Frames.
Variable raises : call → option exn.
Variable monotonic_time : option callable.
Variable gc_attribute : string → option attr.
Variable textwrap_fill : string → string.
Variable resolve : string → option (list string).
Variable run_case : string → outcome.
Variable standard_output : TestResult → list string.

(** A component [f] of the process that logging a call does not change
    (every component but [calls]). *)
Context {X : Type} (f : process → X).
Hypothesis f_log_call : ∀ c, keeps f (log_call c).

Lemma keeps_invoke c : keeps f (invoke raises c).
Proof using f_log_call. unfold invoke. keeps. Qed.
Hint Resolve keeps_invoke : keeps.

Lemma keeps_reduce_or_ values value :
  keeps f (reduce_or_ gc_attribute value values).
Proof using Type.
  revert value. induction values as [|v rest IH]; intros value; simpl.
  - keeps.
  - unfold getattr_gc, or_. keeps.
Qed.
Hint Resolve keeps_reduce_or_ : keeps.

Lemma keeps_callback x : keeps f (callback raises gc_attribute x).
Proof using f_log_call.
  destruct x; simpl; unfold httpclient_callback, debug_gc_callback, getattr_gc;
    keeps.
Qed.
Hint Resolve keeps_callback : keeps.

Lemma keeps_configure_ioloop :
  keeps f (configure_ioloop raises monotonic_time).
Proof using f_log_call. unfold configure_ioloop. keeps. Qed.
Hint Resolve keeps_configure_ioloop : keeps.

Lemma keeps_run_parse_callbacks :
  keeps f (run_parse_callbacks raises monotonic_time).
Proof using f_log_call. unfold run_parse_callbacks. keeps. Qed.

(** Loading changes nothing at all. *)
Lemma loadTestsFromNames_pure names p :
  fst (loadTestsFromNames resolve names p) = p.
Proof using Type.
  induction names as [|name rest IH]; simpl; [reflexivity|].
  destruct (resolve name); [|reflexivity].
  rewrite run_bind. destruct (loadTestsFromNames resolve rest p) as [p' [e|s]];
    simpl in *; exact IH.
Qed.

Lemma keeps_all : keeps f (all resolve).
Proof using Type.
  intros p. unfold all. rewrite loadTestsFromNames_pure. reflexivity.
Qed.

(** ... and that storing an option does not change either (every
    component but [calls] and [options]). *)
Hypothesis f_set_options : ∀ o, keeps f (set_options o).

Lemma keeps_parse_args argv : keeps f (parse_args raises gc_attribute argv).
Proof using f_log_call f_set_options.
  induction argv as [|x rest IH]; simpl; keeps.
Qed.
End Frames.

Lemma executed_set_filters fs : keeps executed (set_filters fs).
Proof. intros p. reflexivity. Qed.
Lemma executed_set_options o : keeps executed (set_options o).
Proof. intros p. reflexivity. Qed.
Lemma executed_log_call c : keeps executed (log_call c).
Proof. intros p. reflexivity. Qed.
Lemma executed_write text : keeps executed (write text).
Proof. intros p. reflexivity. Qed.
Lemma filters_set_options o : keeps filters (set_options o).
Proof. intros p. reflexivity. Qed.
Lemma filters_log_call c : keeps filters (log_call c).
Proof. intros p. reflexivity. Qed.
Lemma filters_write text : keeps filters (write text).
Proof. intros p. reflexivity. Qed.
Lemma filters_mark_executed test : keeps filters (mark_executed test).
Proof. intros p. reflexivity. Qed.
Lemma options_log_call c : keeps options (log_call c).
Proof. intros p. reflexivity. Qed.
Lemma executed_filterwarnings a msg cat mod_ :
  keeps executed (filterwarnings a msg cat mod_).
Proof. intros p. reflexivity. Qed.

#[global] Hint Resolve executed_set_filters executed_set_options
  executed_log_call executed_write filters_set_options filters_log_call
  filters_write filters_mark_executed options_log_call
  executed_filterwarnings : keeps.
#[global] Hint Resolve keeps_invoke keeps_callback keeps_configure_ioloop
  keeps_run_parse_callbacks keeps_parse_args keeps_all : keeps.

Lemma filters_run_cases run_case suite r :
  keeps filters (run_cases run_case suite r).
Proof. revert r. induction suite as [|t rest IH]; intros r; simpl; keeps. Qed.

Lemma filters_write_all lines : keeps filters (write_all lines).
Proof. induction lines as [|l rest IH]; simpl; keeps. Qed.

#[global] Hint Resolve filters_run_cases filters_write_all : keeps.

Lemma filters_tornado_testing_main raises monotonic_time gc_attribute
    textwrap_fill resolve run_case standard_output argv :
  keeps filters
    (tornado_testing_main raises monotonic_time gc_attribute textwrap_fill
       resolve run_case standard_output argv).
Proof. unfold tornado_testing_main, run, TextTestRunner_run. keeps. Qed.


(** ** Runs that stop before any test *)

Lemma aborts_bind_l {A B} (m : M A) (k : A → M B) p :
  aborts m p → aborts (m ≫= k) p.
Proof.
  intros (e & p' & Hm & He). exists e, p'.
  split; [apply run_bind_raise, Hm | exact He].
Qed.

Lemma aborts_bind_r {A B} (m : M A) (k : A → M B) p :
  keeps executed m →
  (∀ a p1, m p = (p1, inr a) → aborts (k a) p1) →
  aborts (m ≫= k) p.
Proof.
  intros Hm Hk. specialize (Hm p). unfold aborts. rewrite run_bind.
  destruct (m p) as [p1 [e|a]] eqn:E; simpl in Hm.
  - exists e, p1. split; [reflexivity | exact Hm].
  - destruct (Hk a p1 eq_refl) as (e & p' & Hrun & He).
    exists e, p'. split; [exact Hrun | congruence].
Qed.

Section Parsing.
Variable raises : call → option exn.
Variable gc_attribute : string → option attr.

Lemma parse_args_options argv p p1 u :
  parse_args raises gc_attribute argv p = (p1, inr u) →
  options p1 = resolved (options p) argv.
Proof.
  revert p. induction argv as [|x rest IH]; intros p; simpl.
  - unfold mret, M_ret. intros [= <- _]. reflexivity.
  - unfold mbind, M_bind, get_options, set_options.
    set (p2 := {| filters := filters p; options := store x (options p);
                  calls := calls p; executed := executed p;
                  stream := stream p |}).
    pose proof (keeps_callback raises gc_attribute options options_log_call
                  x p2) as Hc.
    destruct (callback raises gc_attribute x p2) as [p3 [e|[]]];
      [discriminate|].
    intros H. rewrite (IH _ H). simpl in Hc. rewrite Hc. reflexivity.
Qed.

Hypothesis never_raises : ∀ c, raises c = None.

Lemma invoke_returns c p : snd (invoke raises c p) = inr ().
Proof using never_raises.
  unfold invoke. rewrite run_bind. simpl. rewrite never_raises. reflexivity.
Qed.

Lemma callback_returns x p :
  (∀ values, x ≠ set_debug_gc values) →
  snd (callback raises gc_attribute x p) = inr ().
Proof using never_raises.
  intros Hx. destruct x; simpl; unfold httpclient_callback;
    try apply invoke_returns; try reflexivity.
  destruct (Hx values eq_refl).
Qed.

Lemma parse_args_returns argv p :
  (∀ values, set_debug_gc values ∉ argv) →
  snd (parse_args raises gc_attribute argv p) = inr ().
Proof using never_raises.
  revert p. induction argv as [|x rest IH]; intros p Hargv; simpl.
  - reflexivity.
  - unfold mbind, M_bind, get_options, set_options.
    match goal with |- context [callback _ _ x ?q] =>
      pose proof (callback_returns x q) as Hc;
      destruct (callback raises gc_attribute x q) as [p3 [e|[]]]
    end.
    + simpl in Hc. discriminate Hc.
      intros values ->. apply (Hargv values). left.
    + apply IH. intros values Hin. apply (Hargv values). right. exact Hin.
Qed.
End Parsing.

(** ** The session *)

Section Session.
Variable raises : call → option exn.
Variable monotonic_time : option callable.
Variable gc_attribute : string → option attr.
Variable textwrap_fill : string → string.
Variable CRITICAL : Z.
Variable resolve : string → option (list string).
Variable run_case : string → outcome.
Variable standard_output : TestResult → list string.

Lemma run_invoke c p :
  invoke raises c p
    = (fst (log_call c p),
       match raises c with Some e => inl e | None => inr () end).
Proof using Type.
  unfold invoke, mbind, M_bind. simpl. destruct (raises c); reflexivity.
Qed.

Lemma configure_ioloop_raises q :
  monotonic_time = None →
  ioloop_time_monotonic (options q) = true →
  configure_ioloop raises monotonic_time q
    = (q, inl (RuntimeError "monotonic clock not found")).
Proof using Type.
  intros -> Hq. unfold configure_ioloop, mbind, M_bind, get_options.
  rewrite Hq. reflexivity.
Qed.

Lemma loadTestsFromNames_unresolvable names :
  (∃ name, name ∈ names ∧ resolve name = None) →
  ∃ bad, bad ∈ names ∧ resolve bad = None ∧
    ∀ q, loadTestsFromNames resolve names q = (q, inl (LoadError bad)).
Proof using Type.
  induction names as [|n rest IH]; intros (name & Hin & Hname).
  - inversion Hin.
  - simpl. destruct (resolve n) as [cases|] eqn:Hn.
    + assert (Hrest : name ∈ rest).
      { apply elem_of_cons in Hin as [->|Hin]; [congruence | exact Hin]. }
      destruct IH as (bad & Hbad & Hnone & Hload); [by exists name|].
      exists bad. split; [by right|]. split; [exact Hnone|].
      intros q. unfold mbind, M_bind. rewrite Hload. reflexivity.
    + exists n. split; [by left|]. split; [exact Hn|]. reflexivity.
Qed.

Lemma loadTestsFromNames_resolvable names :
  (∀ name, name ∈ names → is_Some (resolve name)) →
  ∃ suite, ∀ q, loadTestsFromNames resolve names q = (q, inr suite).
Proof using Type.
  induction names as [|n rest IH]; intros Hall.
  - exists []. reflexivity.
  - destruct (Hall n) as [cases Hn]; [by left|].
    destruct IH as [suite Hsuite]; [intros name H; apply Hall; by right|].
    exists (cases ++ suite). intros q. simpl. rewrite Hn.
    unfold mbind, M_bind. rewrite Hsuite. reflexivity.
Qed.

(** The runner runs every case of the suite, in order. *)
Lemma run_cases_executed suite r q :
  ∃ q' r', run_cases run_case suite r q = (q', inr r') ∧
    executed q' = executed q ++ suite.
Proof using Type.
  revert r q. induction suite as [|t rest IH]; intros r q; simpl.
  - exists q, r. rewrite app_nil_r. done.
  - unfold mbind, M_bind, mark_executed.
    match goal with |- context [run_cases _ rest ?r1 ?q1] =>
      destruct (IH r1 q1) as (q' & r' & -> & He) end.
    exists q', r'. split; [reflexivity|].
    rewrite He. simpl. rewrite <- app_assoc. reflexivity.
Qed.

Abbreviation session :=
  (tornado_testing_main raises monotonic_time gc_attribute textwrap_fill
     resolve run_case standard_output).
Abbreviation main' :=
  (main raises monotonic_time gc_attribute textwrap_fill CRITICAL resolve
     run_case standard_output).

(** [main] is [tornado.testing.main] run after the filters are installed,
    the access logger is silenced and the options are defined. *)
Lemma main_aborts argv p :
  (∀ q, options q = defaults → aborts (session argv) q) →
  aborts (main' argv) p.
Proof using Type.
  intros Hsession. unfold main.
  do 14 (apply aborts_bind_r; [auto with keeps | intros [] ? _]).
  apply aborts_bind_r; [auto with keeps | intros [] q Hq].
  apply Hsession. unfold set_options in Hq. by simplify_eq.
Qed.

Lemma main_run argv p :
  main' argv p
    = (invoke raises (Logger_setLevel "tornado.access" CRITICAL);;
       set_options defaults;;
       session argv)
        (fst (set_filters
                (foldl warnings.registerRule (filters p) main_filters) p)).
Proof using Type. reflexivity. Qed.

Lemma main_returns_session argv p :
  raises (Logger_setLevel "tornado.access" CRITICAL) = None →
  ∃ q, options q = defaults ∧ snd (main' argv p) = snd (session argv q).
Proof using Type.
  intros Hlog. rewrite main_run.
  rewrite run_bind, run_invoke, Hlog. rewrite run_bind.
  eexists. split; [|reflexivity]. reflexivity.
Qed.

(** With the monotonic clock asked for and missing, the session stops at
    [configure_ioloop]. *)
Lemma session_aborts_no_clock argv q :
  monotonic_time = None →
  ioloop_time_monotonic (resolved (options q) argv) = true →
  aborts (session argv) q.
Proof using Type.
  intros Hclock Hopt. unfold tornado_testing_main.
  apply aborts_bind_r; [auto with keeps | intros [] q1 Hq1].
  apply aborts_bind_l, aborts_bind_l.
  exists (RuntimeError "monotonic clock not found"), q1.
  split; [|reflexivity]. apply configure_ioloop_raises; [exact Hclock|].
  rewrite (parse_args_options _ _ _ _ _ _ Hq1). exact Hopt.
Qed.

(** With an unresolvable module, the session stops at [all()] at the
    latest. *)
Lemma session_aborts_unresolvable argv q :
  (∃ name, name ∈ TEST_MODULES ∧ resolve name = None) →
  aborts (session argv) q.
Proof using Type.
  intros Hbad. unfold tornado_testing_main.
  apply aborts_bind_r; [auto with keeps | intros [] q1 _].
  apply aborts_bind_r; [auto with keeps | intros [] q2 _].
  apply aborts_bind_l.
  destruct (loadTestsFromNames_unresolvable _ Hbad) as (bad & _ & _ & Hload).
  exists (LoadError bad), q2. split; [apply Hload | reflexivity].
Qed.
End Session.

Lemma registrations_append (init regs : list warnings.rule) :
  foldl warnings.registerRule init regs = init ++ regs.
Proof.
  revert init. induction regs as [|r regs IH]; intros init; simpl.
  - by rewrite app_nil_r.
  - rewrite IH. unfold warnings.registerRule. by rewrite <- app_assoc.
Qed.

Lemma main_installs_filters raises monotonic_time gc_attribute textwrap_fill
    CRITICAL resolve run_case standard_output argv p :
  filters
    (fst (main raises monotonic_time gc_attribute textwrap_fill CRITICAL
            resolve run_case standard_output argv p))
    = filters p ++ main_filters.
Proof.
  rewrite main_run.
  match goal with |- filters (fst (?m ?q)) = _ =>
    assert (Hk : keeps filters m)
      by (keeps; apply filters_tornado_testing_main);
    rewrite (Hk q)
  end.
  exact (registrations_append (filters p) main_filters).
Qed.

Section Classification.
Variables module_match message_match : string → string → bool.

Abbreviation matches := (warnings.matches module_match message_match).
Abbreviation scan := (warnings.scan module_match message_match).
Abbreviation classify := (warnings.classify module_match message_match).

Lemma scan_app ambient l1 l2 ev :
  scan ambient (l1 ++ l2) ev = scan (scan ambient l2 ev) l1 ev.
Proof.
  induction l1 as [|r l1 IH]; simpl; [reflexivity|].
  destruct (matches ev r); [reflexivity | exact IH].
Qed.

(** The newest rule decides when it matches; otherwise the older ones do. *)
Lemma classify_snoc ambient rules r ev :
  classify ambient (rules ++ [r]) ev
    = if matches ev r then warnings.r_action r
      else classify ambient rules ev.
Proof. unfold warnings.classify. rewrite reverse_snoc. reflexivity. Qed.

Lemma classify_last_match ambient (rules : list warnings.rule) ev i r :
  rules !! i = Some r →
  matches ev r = true →
  (∀ j r', (i < j)%nat → rules !! j = Some r' → matches ev r' = false) →
  classify ambient rules ev = warnings.r_action r.
Proof.
  revert i r. induction rules as [|x l IH] using rev_ind;
    intros i r Hi Hr Hlater.
  - rewrite lookup_nil in Hi. discriminate.
  - rewrite classify_snoc.
    destruct (decide (i = length l)) as [->|Hne].
    + rewrite list_lookup_middle in Hi by reflexivity.
      injection Hi as ->. rewrite Hr. reflexivity.
    + assert (Hlt : (i < length l)%nat).
      { apply lookup_lt_Some in Hi. rewrite length_app in Hi. simpl in Hi.
        lia. }
      rewrite (Hlater (length l) x Hlt) by by apply list_lookup_middle.
      rewrite lookup_app_l in Hi by exact Hlt.
      apply (IH i r Hi Hr). intros j r' Hij Hj.
      apply (Hlater j r' Hij). rewrite lookup_app_l; [exact Hj|].
      by apply lookup_lt_Some in Hj.
Qed.

Lemma classify_no_match ambient (rules : list warnings.rule) ev :
  (∀ r, r ∈ rules → matches ev r = false) →
  classify ambient rules ev = ambient.
Proof.
  induction rules as [|x l IH] using rev_ind; intros Hnone.
  - reflexivity.
  - rewrite classify_snoc, Hnone by (apply elem_of_app; right; by left).
    apply IH. intros r Hr. apply Hnone, elem_of_app. by left.
Qed.

(** Every event has a last rule that matches it, or none at all. *)
Lemma last_match_or_none (rules : list warnings.rule) ev :
  (∃ i r, rules !! i = Some r ∧ matches ev r = true ∧
     ∀ j r', (i < j)%nat → rules !! j = Some r' → matches ev r' = false) ∨
  (∀ r, r ∈ rules → matches ev r = false).
Proof.
  induction rules as [|x l IH] using rev_ind.
  - right. intros r Hr. inversion Hr.
  - destruct (matches ev x) eqn:Hx.
    + left. exists (length l), x. split; [by apply list_lookup_middle|].
      split; [exact Hx|]. intros j r' Hj Hr'.
      apply lookup_lt_Some in Hr'. rewrite length_app in Hr'. simpl in Hr'.
      lia.
    + destruct IH as [(i & r & Hi & Hr & Hlater)|Hnone].
      * left. exists i, r. split.
        { rewrite lookup_app_l; [exact Hi | by apply lookup_lt_Some in Hi]. }
        split; [exact Hr|]. intros j r' Hij Hj.
        destruct (decide (j < length l)%nat) as [Hlt|Hge].
        { rewrite lookup_app_l in Hj by exact Hlt. by apply (Hlater j). }
        assert (Hjl : j = length l).
        { apply lookup_lt_Some in Hj. rewrite length_app in Hj.
          simpl in Hj. lia. }
        subst j. rewrite list_lookup_middle in Hj by reflexivity.
        by injection Hj as <-.
      * right. intros r [Hr|Hr]%elem_of_app; [by apply Hnone|].
        apply list_elem_of_singleton in Hr as ->. exact Hx.
Qed.

(** A rule that matches an event hides every older rule and the ambient
    default from it: for the newer rules it is the default. *)
Lemma classify_shadow ambient older b newer ev :
  matches ev b = true →
  classify ambient (older ++ b :: newer) ev
    = classify (warnings.r_action b) newer ev.
Proof.
  intros Hb. unfold warnings.classify.
  rewrite reverse_app, reverse_cons, <- app_assoc, scan_app, scan_app.
  simpl. rewrite Hb. reflexivity.
Qed.

(** The first rule of [main], [filterwarnings("error")], matches every
    warning. *)
Lemma blanket_matches ev :
  "Warning" ∈ warnings.category ev →
  matches ev
    {| warnings.r_action := warnings.error; warnings.r_message := None;
       warnings.r_category := "Warning"; warnings.r_module := None |} = true.
Proof.
  intros H. unfold warnings.matches, warnings.issubclass. simpl.
  by rewrite bool_decide_eq_true_2.
Qed.
End Classification.

(** The loop of [reduce] on names that all stand for integer constants. *)
Lemma reduce_or__ints (gc_attribute : string → option attr)
    (values : list string) (ints : list Z) (z : Z) (p : process) :
  Forall2 (λ v i, gc_attribute v = Some (IntConst i)) values ints →
  reduce_or_ gc_attribute (IntConst z) values p
    = (p, inr (IntConst (foldl Z.lor z ints))).
Proof.
  intros H. revert z. induction H as [|v i vs is_ Hv _ IH]; intros z.
  - reflexivity.
  - simpl. unfold getattr_gc. rewrite Hv. apply IH.
Qed.

(** ** The joined text, and reading it back *)

Lemma string_app_assoc (a b c : string) : (a +:+ b) +:+ c = a +:+ b +:+ c.
Proof.
  induction a as [|x a IH]; [reflexivity|].
  change (String x ((a +:+ b) +:+ c) = String x (a +:+ b +:+ c)).
  by rewrite IH.
Qed.

(** [join] agrees with the library's [String.concat]. *)
Lemma join_concat (sep : string) (items : list string) :
  join sep items = String.concat sep items.
Proof.
  destruct items as [|x rest]; [reflexivity|]. unfold join.
  revert x. induction rest as [|y rest IH]; intros x; [reflexivity|].
  simpl foldl. rewrite IH.
  change (String.concat sep (x :: y :: rest))
    with (x +:+ sep +:+ String.concat sep (y :: rest)).
  destruct rest as [|z rest]; [reflexivity|].
  change (String.concat sep (y :: z :: rest))
    with (y +:+ sep +:+ String.concat sep (z :: rest)).
  change (String.concat sep ((x +:+ sep +:+ y) :: z :: rest))
    with ((x +:+ sep +:+ y) +:+ sep +:+ String.concat sep (z :: rest)).
  by rewrite !string_app_assoc.
Qed.

Lemma listed_separator_free (r : string) :
  has_separator r = false → listed r = [r].
Proof.
  induction r as [|c rest IH]; [reflexivity|].
  intros H. destruct rest as [|d rest']; [reflexivity|].
  change (has_separator (String c (String d rest')))
    with ((Ascii.eqb c ","%char && Ascii.eqb d " "%char)
          || has_separator (String d rest')) in H.
  apply orb_false_iff in H as [Hsep Hrest].
  change (listed (String c (String d rest')))
    with (if Ascii.eqb c ","%char && Ascii.eqb d " "%char
          then EmptyString :: listed rest'
          else push_char c (listed (String d rest'))).
  rewrite Hsep, (IH Hrest). reflexivity.
Qed.

Lemma listed_app_separator (r tail : string) :
  has_separator r = false →
  listed (r +:+ ", " +:+ tail) = r :: listed tail.
Proof.
  induction r as [|c rest IH]; [reflexivity|].
  intros H. destruct rest as [|d rest'].
  - change (listed (String c (String "," (String " " tail)))
            = String c EmptyString :: listed tail).
    change (listed (String c (String "," (String " " tail))))
      with (if Ascii.eqb c ","%char && Ascii.eqb "," " "
            then EmptyString :: listed (String " " tail)
            else push_char c (listed ("" +:+ ", " +:+ tail))).
    rewrite andb_false_r, (IH eq_refl). reflexivity.
  - change (has_separator (String c (String d rest')))
      with ((Ascii.eqb c ","%char && Ascii.eqb d " "%char)
            || has_separator (String d rest')) in H.
    apply orb_false_iff in H as [Hsep Hrest].
    change (listed (String c (String d rest') +:+ ", " +:+ tail))
      with (if Ascii.eqb c ","%char && Ascii.eqb d " "%char
            then EmptyString :: listed (rest' +:+ ", " +:+ tail)
            else push_char c (listed (String d rest' +:+ ", " +:+ tail))).
    rewrite Hsep, (IH Hrest). reflexivity.
Qed.

(** Splitting the joined text at the separators gives the items back, each
    once and in the same order, when the separator occurs in none of them. *)
Lemma listed_join (items : list string) :
  items ≠ [] →
  Forall (λ r, has_separator r = false) items →
  listed (join ", " items) = items.
Proof.
  intros Hne Hfree. rewrite join_concat.
  induction Hfree as [|r rest Hr Hrest IH]; [done|].
  destruct rest as [|r' rest']; [by apply listed_separator_free|].
  change (String.concat ", " (r :: r' :: rest'))
    with (r +:+ ", " +:+ String.concat ", " (r' :: rest')).
  rewrite (listed_app_separator _ _ Hr), IH; done.
Qed.

Lemma sorted_nonempty (result : TestResult) :
  skipped result ≠ [] → sorted (skip_reasons result) ≠ [].
Proof.
  intros Hne Hnil. destruct (skipped result) as [|[t r] rest] eqn:E; [done|].
  assert (Hin : r ∈ sorted (skip_reasons result)).
  { rewrite sorted_elem_of, elem_of_skip_reasons, E. exists t.
    apply list_elem_of_here. }
  rewrite Hnil in Hin. by apply elem_of_nil in Hin.
Qed.

(** * Properties of the harness *)

(** C1.  For every list of registrations and every event, the rule list is
    the registrations in order; [classify] returns the action of the
    last-registered rule that matches the event, and the ambient default when
    no rule matches; one of the two cases always applies.  With the rules of
    [main], the first of which matches every warning with action [error], a
    warning takes the action of the last of the later rules that matches it
    and [error] when none of them matches, whatever filters were there before
    and whatever the ambient default of the engine is. *)
Theorem classify_last_registered_match
    (module_match message_match : string → string → bool)
    (ambient : warnings.action) (init regs : list warnings.rule)
    (ev : warnings.event) :
  let matches := warnings.matches module_match message_match in
  let classify := warnings.classify module_match message_match in
  let rules := foldl warnings.registerRule init regs in
  rules = init ++ regs ∧
  (∀ i r, rules !! i = Some r → matches ev r = true →
     (∀ j r', (i < j)%nat → rules !! j = Some r' → matches ev r' = false) →
     classify ambient rules ev = warnings.r_action r) ∧
  ((∀ r, r ∈ rules → matches ev r = false) →
     classify ambient rules ev = ambient) ∧
  ((∃ i r, rules !! i = Some r ∧ matches ev r = true ∧
      ∀ j r', (i < j)%nat → rules !! j = Some r' → matches ev r' = false) ∨
   (∀ r, r ∈ rules → matches ev r = false)) ∧
  ("Warning" ∈ warnings.category ev →
   ∀ raises monotonic_time gc_attribute textwrap_fill CRITICAL resolve
     run_case standard_output argv p,
     let installed :=
       filters
         (fst (main raises monotonic_time gc_attribute textwrap_fill CRITICAL
                 resolve run_case standard_output argv p)) in
     installed = filters p ++ main_filters ∧
     classify ambient installed ev
       = classify warnings.error (drop 1 main_filters) ev ∧
     ((∀ r, r ∈ drop 1 main_filters → matches ev r = false) →
      classify ambient installed ev = warnings.error)).
Proof.
  intros matches classify rules. split; [apply registrations_append|].
  split; [intros i r; apply classify_last_match|].
  split; [apply classify_no_match|].
  split; [apply last_match_or_none|].
  intros Hw raises monotonic_time gc_attribute textwrap_fill CRITICAL resolve
    run_case standard_output argv p installed.
  assert (Hinst : installed = filters p ++ main_filters)
    by apply main_installs_filters.
  assert (Hcl : classify ambient installed ev
                = classify warnings.error (drop 1 main_filters) ev).
  { rewrite Hinst. unfold main_filters at 1.
    unfold classify. rewrite classify_shadow by by apply blanket_matches.
    reflexivity. }
  split; [exact Hinst|]. split; [exact Hcl|].
  intros Hnone. rewrite Hcl. by apply classify_no_match.
Qed.

Lemma classify_last_registered_match_witness :
  let ev := Examples.warning "DeprecationWarning" "tornado.web"
              "@asynchronous is deprecated, use coroutines instead" in
  let installed :=
    filters
      (fst (main Examples.raises None Examples.gc_attribute Examples.fill 50
              Examples.resolve Examples.run_case Examples.standard_output []
              Examples.p0)) in
  "Warning" ∈ warnings.category ev ∧
  warnings.classify re.module_match re.message_match warnings.default
    installed ev = warnings.ignore ∧
  warnings.classify re.module_match re.message_match warnings.default
    installed (Examples.warning "UserWarning" "tortik.page" "careful")
    = warnings.error.
Proof.
  cbv zeta.
  assert (H : ∀ c m t, "Warning" ∈ warnings.category (Examples.warning c m t))
    by (intros c m t; apply list_elem_of_further, list_elem_of_here).
  split; [apply H|]. split.
  - destruct (classify_last_registered_match re.module_match re.message_match
                warnings.default [] main_filters
                (Examples.warning "DeprecationWarning" "tornado.web"
                   "@asynchronous is deprecated, use coroutines instead"))
      as (_ & Hlast & _ & _ & Hmain).
    destruct (Hmain (H _ _ _) Examples.raises None Examples.gc_attribute
                Examples.fill 50 Examples.resolve Examples.run_case
                Examples.standard_output [] Examples.p0) as (-> & _ & _).
    pose proof (Hlast 6%nat _ eq_refl eq_refl) as Hsix.
    apply Hsix. intros j r' Hj Hr'.
    do 7 (destruct j as [|j]; [lia|]).
    do 6 (destruct j as [|j]; [injection Hr' as <-; reflexivity|]).
    discriminate Hr'.
  - destruct (classify_last_registered_match re.module_match re.message_match
                warnings.default [] main_filters
                (Examples.warning "UserWarning" "tortik.page" "careful"))
      as (_ & _ & _ & _ & Hmain).
    destruct (Hmain (H _ _ _) Examples.raises None Examples.gc_attribute
                Examples.fill 50 Examples.resolve Examples.run_case
                Examples.standard_output [] Examples.p0) as (_ & _ & Hnone).
    apply Hnone. intros r Hr.
    repeat (apply elem_of_cons in Hr as [->|Hr]; [reflexivity|]).
    destruct (proj1 (elem_of_nil _) Hr).
Defined.

Example re_module_tornado :
  re.module_match "tornado\..*" "tornado.gen" = true ∧
  re.module_match "tornado\..*" "tornadoweb" = false ∧
  re.module_match "tornado\..*" "tortik.page" = false ∧
  re.message_match "Please use assert.* instead" "please use assertEqual instead"
    = true.
Proof. repeat split; reflexivity. Qed.

Example classify_main_examples :
  Examples.classify_main
    (Examples.warning "DeprecationWarning" "tornado.gen" "gen.Task is deprecated, use coroutines")
    = warnings.ignore ∧
  Examples.classify_main
    (Examples.warning "DeprecationWarning" "tornado.web" "something else")
    = warnings.error ∧
  Examples.classify_main
    (Examples.warning "DeprecationWarning" "requests.api" "something else")
    = warnings.ignore ∧
  Examples.classify_main
    (Examples.warning "PendingDeprecationWarning" "tornado.web" "x")
    = warnings.error ∧
  Examples.classify_main
    (Examples.warning "ImportWarning" "tornado.web" "x") = warnings.ignore ∧
  Examples.classify_main
    (Examples.warning "BytesWarning" "twisted.internet" "x") = warnings.ignore ∧
  Examples.classify_main
    (Examples.warning "ResourceWarning" "tortik.page" "unclosed socket")
    = warnings.error.
Proof. repeat split; vm_compute; reflexivity. Qed.

(** C2.  Starting from a fresh counter, after any stream of records
    [error_count] is the number of records at or above [ERROR],
    [warning_count] is the number of records at or above [WARNING] and below
    [ERROR], records below [WARNING] leave the counter as it was, and the two
    counts add up to the number of records at or above [WARNING], whatever
    the emission order (any permutation of the stream gives the same
    counter). *)
Theorem LogCounter_counts (ERROR WARNING : Z) (records : list LogCounter.LogRecord) :
  WARNING ≤ ERROR →
  let c := LogCounter.observe ERROR WARNING LogCounter.__init__ records in
  LogCounter.error_count c = LogCounter.count (LogCounter.is_error ERROR) records ∧
  LogCounter.warning_count c
    = LogCounter.count (LogCounter.is_warning ERROR WARNING) records ∧
  (∀ self r, LogCounter.levelno r < WARNING →
     fst (LogCounter.filter ERROR WARNING self r) = self) ∧
  LogCounter.warning_count c + LogCounter.error_count c
    = LogCounter.count (LogCounter.at_least_warning WARNING) records ∧
  (∀ records', records' ≡ₚ records →
     LogCounter.observe ERROR WARNING LogCounter.__init__ records' = c).
Proof.
  intros Hle c.
  destruct (observe_counts ERROR WARNING LogCounter.__init__ records)
    as [He Hw].
  fold c in He, Hw. simpl in He, Hw.
  split; [exact He|]. split; [exact Hw|]. split; [|split].
  - intros self r Hr. unfold LogCounter.filter.
    destruct (Z.leb_spec ERROR (LogCounter.levelno r)); [lia|].
    destruct (Z.leb_spec WARNING (LogCounter.levelno r)); [lia|]. reflexivity.
  - rewrite He, Hw. apply count_split, Hle.
  - intros records' Hp.
    destruct (observe_counts ERROR WARNING LogCounter.__init__ records')
      as [He' Hw'].
    simpl in He', Hw'.
    rewrite (count_Permutation _ _ _ Hp) in He'.
    rewrite (count_Permutation _ _ _ Hp) in Hw'.
    destruct (LogCounter.observe _ _ _ records') as [w' e'], c as [w e].
    simpl in *. congruence.
Qed.

Lemma LogCounter_counts_witness :
  let records := Examples.record <$> [10; 30; 40; 20; 50; 35; 39; 0] in
  30 ≤ 40 ∧
  LogCounter.error_count
    (LogCounter.observe 40 30 LogCounter.__init__ records) = 2 ∧
  LogCounter.warning_count
    (LogCounter.observe 40 30 LogCounter.__init__ records) = 3.
Proof.
  cbv zeta.
  assert (H : 30 ≤ 40) by lia.
  split; [exact H|].
  destruct (LogCounter_counts 40 30
              (Examples.record <$> [10; 30; 40; 20; 50; 35; 39; 0]) H)
    as (He & Hw & _).
  split; [rewrite He | rewrite Hw]; reflexivity.
Defined.

(** C3.  Registering [error] for category [A] (any module, any message) and
    then [ignore] for category [A] and module pattern [M] (any message), on
    top of any earlier filters: a warning of category [A] is ignored when its
    module matches [M], and raised as an error when its module does not. *)
Theorem later_specific_rule_overrides
    (module_match message_match : string → string → bool)
    (ambient : warnings.action) (A M : string)
    (ev : warnings.event) (p : process) :
  A ∈ warnings.category ev →
  let installed :=
    filters
      (fst ((filterwarnings warnings.error None A None;;
             filterwarnings warnings.ignore None A (Some M)) p)) in
  (module_match M (warnings.module ev) = true →
   warnings.classify module_match message_match ambient installed ev
     = warnings.ignore) ∧
  (module_match M (warnings.module ev) = false →
   warnings.classify module_match message_match ambient installed ev
     = warnings.error).
Proof.
  intros HA installed.
  assert (Hinst : installed
    = (filters p
         ++ [{| warnings.r_action := warnings.error;
                warnings.r_message := None; warnings.r_category := A;
                warnings.r_module := None |}])
        ++ [{| warnings.r_action := warnings.ignore;
               warnings.r_message := None; warnings.r_category := A;
               warnings.r_module := Some M |}]) by reflexivity.
  rewrite Hinst, !classify_snoc.
  unfold warnings.matches, warnings.issubclass. simpl.
  rewrite bool_decide_eq_true_2 by exact HA. simpl.
  split; intros ->; reflexivity.
Qed.

Lemma later_specific_rule_overrides_witness :
  let installed :=
    filters
      (fst ((filterwarnings warnings.error None "DeprecationWarning" None;;
             filterwarnings warnings.ignore None "DeprecationWarning"
               (Some "twisted\..*")) Examples.p0)) in
  "DeprecationWarning"
    ∈ warnings.category
        (Examples.warning "DeprecationWarning" "twisted.internet" "old") ∧
  warnings.classify re.module_match re.message_match warnings.default installed
    (Examples.warning "DeprecationWarning" "twisted.internet" "old")
    = warnings.ignore ∧
  "DeprecationWarning"
    ∈ warnings.category
        (Examples.warning "DeprecationWarning" "tortik.page" "old") ∧
  warnings.classify re.module_match re.message_match warnings.default installed
    (Examples.warning "DeprecationWarning" "tortik.page" "old")
    = warnings.error.
Proof.
  cbv zeta.
  assert (H : ∀ m, "DeprecationWarning"
                ∈ warnings.category (Examples.warning "DeprecationWarning" m "old"))
    by (intros m; apply list_elem_of_here).
  split; [apply H|]. split.
  - apply (later_specific_rule_overrides re.module_match re.message_match
             warnings.default "DeprecationWarning" "twisted\..*" _ Examples.p0
             (H "twisted.internet")).
    reflexivity.
  - split; [apply H|].
    apply (later_specific_rule_overrides re.module_match re.message_match
             warnings.default "DeprecationWarning" "twisted\..*" _ Examples.p0
             (H "tortik.page")).
    reflexivity.
Defined.

(** C4.  When the result of the overridden runner has skipped tests, [run]
    writes, after everything that runner wrote, one filled paragraph and then
    a newline.  The paragraph is filled from the fixed opening followed by
    the reasons of the skipped tests, each distinct reason once, in
    increasing (lexicographic) order, separated by [", "]: the text after the
    opening is the concatenation of the reasons with that separator, and
    when the separator occurs in no reason, splitting that text at the
    separators gives back exactly the sorted list of distinct reasons. *)
Theorem run_skip_digest (textwrap_fill : string → string)
    (super_run : list string → M TestResult) (test : list string)
    (p p' : process) (result : TestResult) :
  super_run test p = (p', inr result) →
  skipped result ≠ [] →
  let reasons := sorted (skip_reasons result) in
  snd (run textwrap_fill super_run test p) = inr result ∧
  stream (fst (run textwrap_fill super_run test p))
    = stream p'
      ++ [textwrap_fill
            ("Some tests were skipped because: " +:+ join ", " reasons);
          newline] ∧
  NoDup reasons ∧
  StronglySorted String.le reasons ∧
  (∀ reason, reason ∈ reasons ↔ ∃ t, (t, reason) ∈ skipped result) ∧
  reasons ≠ [] ∧
  stream (fst (run textwrap_fill super_run test p))
    = stream p'
      ++ [textwrap_fill
            ("Some tests were skipped because: "
               +:+ String.concat ", " reasons);
          newline] ∧
  (Forall (λ r, has_separator r = false) reasons →
   listed (join ", " reasons) = reasons) ∧
  (∀ i r r', reasons !! i = Some r → reasons !! S i = Some r' →
     String.le r r' ∧ r ≠ r').
Proof.
  intros Hsuper Hskipped reasons.
  assert (Hstream : stream (fst (run textwrap_fill super_run test p))
            = stream p'
              ++ [textwrap_fill
                    ("Some tests were skipped because: " +:+ join ", " reasons);
                  newline]).
  { unfold run. rewrite (run_bind_ok _ _ _ _ _ Hsuper), run_bind.
    rewrite bool_decide_eq_true_2 by exact Hskipped.
    simpl. rewrite <- app_assoc. reflexivity. }
  assert (Hnodup : NoDup reasons) by apply sorted_NoDup.
  assert (Hsorted : StronglySorted String.le reasons)
    by apply sorted_StronglySorted.
  split.
  { unfold run. rewrite (run_bind_ok _ _ _ _ _ Hsuper), run_bind.
    rewrite bool_decide_eq_true_2 by exact Hskipped. reflexivity. }
  split; [exact Hstream|]. split; [exact Hnodup|]. split; [exact Hsorted|].
  split.
  { intros reason. unfold reasons.
    rewrite sorted_elem_of. apply elem_of_skip_reasons. }
  split; [by apply sorted_nonempty|].
  split; [by rewrite Hstream, join_concat|].
  split; [intros Hfree; apply listed_join; [by apply sorted_nonempty | exact Hfree]|].
  intros i r r' Hi Hi'.
  assert (Hsplit : reasons = take i reasons ++ r :: r' :: drop (S (S i)) reasons).
  { rewrite <- (take_drop_middle reasons i r Hi) at 1. do 2 f_equal.
    apply (drop_S reasons r' (S i)) in Hi' as <-. reflexivity. }
  split.
  - rewrite Hsplit in Hsorted.
    apply StronglySorted_app_1_r, StronglySorted_cons in Hsorted as [Hall _].
    by apply Forall_cons in Hall as [Hle _].
  - intros <-. rewrite Hsplit in Hnodup.
    apply NoDup_app in Hnodup as (_ & _ & Hnodup).
    apply NoDup_cons in Hnodup as [Hnotin _]. apply Hnotin, list_elem_of_here.
Qed.

Lemma run_skip_digest_witness :
  let suite := ["A.test_1"; "A.test_2"; "B.test_1"; "B.test_2"; "C.test_1"] in
  let run_case test :=
    if decide (test = "A.test_1") then skip "zlib missing"
    else if decide (test = "A.test_2") then skip "no network"
    else if decide (test = "B.test_1") then passed
    else if decide (test = "B.test_2") then skip "zlib missing"
    else skip "no network" in
  let super_run := TextTestRunner_run run_case Examples.standard_output in
  ∃ p' result,
    super_run suite Examples.p0 = (p', inr result) ∧
    skipped result ≠ [] ∧
    Forall (λ r, has_separator r = false) (sorted (skip_reasons result)) ∧
    stream (fst (run Examples.fill super_run suite Examples.p0))
      = ["OK"; "Some tests were skipped because: no network, zlib missing";
         newline] ∧
    listed (join ", " (sorted (skip_reasons result)))
      = ["no network"; "zlib missing"].
Proof.
  cbv zeta.
  eexists _, _.
  match goal with |- ?run_it = _ ∧ _ =>
    assert (H1 : run_it
               = ({| filters := []; options := defaults; calls := [];
                     executed := ["A.test_1"; "A.test_2"; "B.test_1";
                                  "B.test_2"; "C.test_1"];
                     stream := ["OK"] |},
                  inr {| skipped := [("A.test_1", "zlib missing");
                                     ("A.test_2", "no network");
                                     ("B.test_2", "zlib missing");
                                     ("C.test_1", "no network")];
                         failures := []; errors := []; testsRun := 5 |}))
      by reflexivity
  end.
  assert (H2 : [("A.test_1", "zlib missing"); ("A.test_2", "no network");
                ("B.test_2", "zlib missing"); ("C.test_1", "no network")]
               ≠ @nil (string * string)) by discriminate.
  split; [exact H1|]. split; [exact H2|].
  destruct (run_skip_digest Examples.fill _ _ _ _ _ H1 H2)
    as (_ & _ & _ & _ & _ & _ & Hs & Hlisted & _).
  assert (Hsorted : sorted
            (skip_reasons
               {| skipped := [("A.test_1", "zlib missing");
                              ("A.test_2", "no network");
                              ("B.test_2", "zlib missing");
                              ("C.test_1", "no network")];
                  failures := []; errors := []; testsRun := 5 |})
          = ["no network"; "zlib missing"]) by (vm_compute; reflexivity).
  assert (Hfree : Forall (λ r, has_separator r = false)
                    ["no network"; "zlib missing"]) by (repeat constructor).
  rewrite Hsorted in Hs, Hlisted |- *.
  split; [exact Hfree|]. split; [exact Hs | exact (Hlisted Hfree)].
Defined.

(** C5.  When the command line resolves [ioloop_time_monotonic] to true and
    the platform has no monotonic clock ([monotonic_time] is [None]),
    [configure_ioloop] raises [RuntimeError("monotonic clock not found")]
    without configuring the event loop; [main] then ends in an exception
    with no test case run, and that exception is this [RuntimeError] unless
    an earlier configuration step has already raised. *)
Theorem monotonic_clock_not_found (raises : call → option exn)
    (gc_attribute : string → option attr) (textwrap_fill : string → string)
    (CRITICAL : Z) (resolve : string → option (list string))
    (run_case : string → outcome) (standard_output : TestResult → list string)
    (argv : list setting) (p : process) :
  ioloop_time_monotonic (resolved defaults argv) = true →
  (∀ q, ioloop_time_monotonic (options q) = true →
     configure_ioloop raises None q
       = (q, inl (RuntimeError "monotonic clock not found"))) ∧
  (∃ e p',
     main raises None gc_attribute textwrap_fill CRITICAL resolve run_case
       standard_output argv p = (p', inl e) ∧
     executed p' = executed p) ∧
  ((∀ c, raises c = None) → (∀ values, set_debug_gc values ∉ argv) →
   snd (main raises None gc_attribute textwrap_fill CRITICAL resolve run_case
          standard_output argv p)
     = inl (RuntimeError "monotonic clock not found")).
Proof.
  intros Hopt. split; [|split].
  - intros q Hq. by apply configure_ioloop_raises.
  - apply main_aborts. intros q Hq.
    apply session_aborts_no_clock; [reflexivity|]. rewrite Hq. exact Hopt.
  - intros Hraises Hargv.
    destruct (main_returns_session raises None gc_attribute textwrap_fill
                CRITICAL resolve run_case standard_output argv p)
      as (q & Hq & ->); [apply Hraises|].
    pose proof (parse_args_returns raises gc_attribute Hraises argv q Hargv)
      as Hret.
    destruct (parse_args raises gc_attribute argv q) as [q1 [e|[]]] eqn:Hparse;
      [discriminate Hret|].
    unfold tornado_testing_main. rewrite (run_bind_ok _ _ _ _ _ Hparse).
    rewrite (run_bind_raise _ _ q1 q1
               (RuntimeError "monotonic clock not found")); [reflexivity|].
    unfold run_parse_callbacks. apply run_bind_raise.
    apply configure_ioloop_raises; [reflexivity|].
    rewrite (parse_args_options _ _ _ _ _ _ Hparse), Hq. exact Hopt.
Qed.

Lemma monotonic_clock_not_found_witness :
  let argv := [set_ioloop "tornado.platform.epoll.EPollIOLoop";
               set_ioloop_time_monotonic true] in
  ioloop_time_monotonic (resolved defaults argv) = true ∧
  snd (main Examples.raises None Examples.gc_attribute Examples.fill 50
         Examples.resolve Examples.run_case Examples.standard_output argv
         Examples.p0)
    = inl (RuntimeError "monotonic clock not found").
Proof.
  cbv zeta.
  assert (H : ioloop_time_monotonic
                (resolved defaults
                   [set_ioloop "tornado.platform.epoll.EPollIOLoop";
                    set_ioloop_time_monotonic true]) = true) by reflexivity.
  split; [exact H|].
  destruct (monotonic_clock_not_found Examples.raises Examples.gc_attribute
              Examples.fill 50 Examples.resolve Examples.run_case
              Examples.standard_output _ Examples.p0 H) as (_ & _ & Hexn).
  apply Hexn; [reflexivity|].
  intros values Hin.
  apply elem_of_cons in Hin as [Hin|Hin]; [discriminate Hin|].
  apply elem_of_cons in Hin as [Hin|Hin]; [discriminate Hin|].
  destruct (proj1 (elem_of_nil _) Hin).
Defined.

(** That run in full: the filters are
    installed, the access logger is silenced, the options are stored, and the
    run stops in [configure_ioloop] with nothing run and nothing written. *)
Example main_no_clock_run :
  let argv := [set_ioloop "tornado.platform.epoll.EPollIOLoop";
               set_ioloop_time_monotonic true] in
  main Examples.raises None Examples.gc_attribute Examples.fill 50
    Examples.resolve Examples.run_case Examples.standard_output argv Examples.p0
  = ({| filters := main_filters;
        options := resolved defaults argv;
        calls := [Logger_setLevel "tornado.access" 50];
        executed := []; stream := [] |},
     inl (RuntimeError "monotonic clock not found")).
Proof. vm_compute. reflexivity. Qed.

(** C6.  When a name of [TEST_MODULES] resolves to no module, [all()] raises
    a load error for such a name and changes nothing; [main] then ends in an
    exception with no test case run, whatever the other modules contain, and
    once option parsing and the parse callbacks have returned that exception
    is the load error. *)
Theorem unresolvable_module_is_fatal (raises : call → option exn)
    (monotonic_time : option callable)
    (gc_attribute : string → option attr) (textwrap_fill : string → string)
    (CRITICAL : Z) (resolve : string → option (list string))
    (run_case : string → outcome) (standard_output : TestResult → list string)
    (argv : list setting) (p : process) :
  (∃ name, name ∈ TEST_MODULES ∧ resolve name = None) →
  ∃ bad, bad ∈ TEST_MODULES ∧ resolve bad = None ∧
    (∀ q, all resolve q = (q, inl (LoadError bad))) ∧
    (∃ e p',
       main raises monotonic_time gc_attribute textwrap_fill CRITICAL resolve
         run_case standard_output argv p = (p', inl e) ∧
       executed p' = executed p) ∧
    (∀ q q1 q2,
       parse_args raises gc_attribute argv q = (q1, inr ()) →
       run_parse_callbacks raises monotonic_time q1 = (q2, inr ()) →
       tornado_testing_main raises monotonic_time gc_attribute textwrap_fill
         resolve run_case standard_output argv q
         = (q2, inl (LoadError bad)) ∧
       executed q2 = executed q).
Proof.
  intros Hbad.
  destruct (loadTestsFromNames_unresolvable resolve _ Hbad)
    as (bad & Hin & Hnone & Hload).
  exists bad. split; [exact Hin|]. split; [exact Hnone|].
  split; [exact Hload|]. split.
  - apply main_aborts. intros q _. by apply session_aborts_unresolvable.
  - intros q q1 q2 Hparse Hcb. split.
    + unfold tornado_testing_main.
      rewrite (run_bind_ok _ _ _ _ _ Hparse), (run_bind_ok _ _ _ _ _ Hcb).
      apply run_bind_raise, Hload.
    + pose proof (keeps_parse_args raises gc_attribute executed
                    executed_log_call executed_set_options argv q) as H1.
      pose proof (keeps_run_parse_callbacks raises monotonic_time executed
                    executed_log_call q1) as H2.
      rewrite Hparse in H1. rewrite Hcb in H2. simpl in *. congruence.
Qed.

Lemma unresolvable_module_is_fatal_witness :
  (∃ name, name ∈ TEST_MODULES ∧ Examples.resolve_but_one name = None) ∧
  ∃ e p',
    main Examples.raises None Examples.gc_attribute Examples.fill 50
      Examples.resolve_but_one Examples.run_case Examples.standard_output []
      Examples.p0 = (p', inl e) ∧
    executed p' = [].
Proof.
  assert (H : ∃ name, name ∈ TEST_MODULES
                      ∧ Examples.resolve_but_one name = None).
  { exists "tortik_tests.util_test". split; [|reflexivity].
    unfold TEST_MODULES. do 6 apply list_elem_of_further.
    apply list_elem_of_here. }
  split; [exact H|].
  destruct (unresolvable_module_is_fatal Examples.raises None
              Examples.gc_attribute Examples.fill 50 Examples.resolve_but_one
              Examples.run_case Examples.standard_output [] Examples.p0 H)
    as (bad & _ & _ & _ & Hmain & _).
  exact Hmain.
Defined.

(** That run in full: the filters are installed, the
    options are parsed and the parse callbacks run, then [all()] raises for
    the missing module, although six modules before it in the list resolve;
    nothing has run and nothing was written. *)
Example main_missing_module_run :
  main Examples.raises None Examples.gc_attribute Examples.fill 50
    Examples.resolve_but_one Examples.run_case Examples.standard_output []
    Examples.p0
  = ({| filters := main_filters; options := defaults;
        calls := [Logger_setLevel "tornado.access" 50; Handler_addFilter];
        executed := []; stream := [] |},
     inl (LoadError "tortik_tests.util_test")).
Proof. vm_compute. reflexivity. Qed.

(** The loader on the names [A] and [X], where only [A] exists: the suite
    is not built, although [A] resolves. *)
Example load_A_X :
  loadTestsFromNames
    (λ name, if decide (name = "A") then Some ["A.test_1"; "A.test_2"] else None)
    ["A"; "X"] Examples.p0
  = (Examples.p0, inl (LoadError "X")).
Proof. reflexivity. Qed.

(** C7.  [run] returns the very result that the overridden runner returned
    (and raises what it raised); it changes nothing of the process but the
    stream, and when the result has no skipped test it leaves the stream as
    the overridden runner left it. *)
Theorem run_returns_result (textwrap_fill : string → string)
    (super_run : list string → M TestResult) (test : list string)
    (p : process) :
  match super_run test p with
  | (p', inr result) =>
      snd (run textwrap_fill super_run test p) = inr result ∧
      (let p'' := fst (run textwrap_fill super_run test p) in
       filters p'' = filters p' ∧ options p'' = options p' ∧
       calls p'' = calls p' ∧ executed p'' = executed p' ∧
       (skipped result = [] → stream p'' = stream p'))
  | (p', inl e) => run textwrap_fill super_run test p = (p', inl e)
  end.
Proof.
  unfold run. rewrite run_bind.
  destruct (super_run test p) as [p' [e|result]]; [reflexivity|].
  rewrite run_bind. case_bool_decide as Hs.
  - split; [reflexivity|]. simpl. repeat split; try reflexivity.
    intros Hnil. contradiction.
  - split; [reflexivity|]. simpl. repeat split; reflexivity.
Qed.

(** C8.  For every record, whatever its level and whatever the state of the
    counter, [filter] returns [True]: the record is always let through. *)
Theorem LogCounter_filter_true (ERROR WARNING : Z) (self : LogCounter.t)
    (record : LogCounter.LogRecord) :
  snd (LogCounter.filter ERROR WARNING self record) = true.
Proof.
  unfold LogCounter.filter.
  destruct (ERROR <=? LogCounter.levelno record); [reflexivity|].
  destruct (WARNING <=? LogCounter.levelno record); reflexivity.
Qed.

(** C9.  For a non-empty list of names that each stand for an integer
    constant of [gc], the callback of [debug_gc] calls [gc.set_debug] once,
    with the left fold by bitwise or of those constants: the first constant
    or-ed with the second, the result with the third, and so on. *)
Theorem debug_gc_sets_or_of_flags (raises : call → option exn)
    (gc_attribute : string → option attr)
    (values : list string) (ints : list Z) (p : process) :
  values ≠ [] →
  Forall2 (λ v i, gc_attribute v = Some (IntConst i)) values ints →
  ∃ first rest,
    ints = first :: rest ∧
    calls (fst (debug_gc_callback raises gc_attribute values p))
      = calls p ++ [gc_set_debug (IntConst (foldl Z.lor first rest))] ∧
    foldl Z.lor first rest = foldl Z.lor 0 ints.
Proof.
  intros Hne H. destruct H as [|v i vs is_ Hv Hrest]; [contradiction|].
  exists i, is_. split; [reflexivity|]. split; [|reflexivity].
  unfold debug_gc_callback, getattr_gc. rewrite Hv.
  unfold mbind at 1, M_bind at 1, mret at 1, M_ret at 1.
  unfold mbind, M_bind. rewrite (reduce_or__ints _ _ _ _ _ Hrest).
  unfold invoke, mbind, M_bind. simpl.
  destruct (raises _); reflexivity.
Qed.

Lemma debug_gc_sets_or_of_flags_witness :
  let values := ["DEBUG_STATS"; "DEBUG_SAVEALL"; "DEBUG_COLLECTABLE"] in
  values ≠ [] ∧
  Forall2 (λ v i, Examples.gc_attribute v = Some (IntConst i)) values [1; 32; 2] ∧
  calls (fst (debug_gc_callback Examples.raises Examples.gc_attribute values
                Examples.p0))
    = [gc_set_debug (IntConst 35)].
Proof.
  cbv zeta.
  assert (H1 : ["DEBUG_STATS"; "DEBUG_SAVEALL"; "DEBUG_COLLECTABLE"] ≠ @nil string)
    by discriminate.
  assert (H2 : Forall2 (λ v i, Examples.gc_attribute v = Some (IntConst i))
                 ["DEBUG_STATS"; "DEBUG_SAVEALL"; "DEBUG_COLLECTABLE"] [1; 32; 2])
    by (repeat constructor).
  split; [exact H1|]. split; [exact H2|].
  destruct (debug_gc_sets_or_of_flags Examples.raises Examples.gc_attribute
              _ _ Examples.p0 H1 H2) as (first & rest & Hints & Hcalls & _).
  injection Hints as <- <-. exact Hcalls.
Defined.

(** A whole run: no option given, every module found.  The eighteen test
    cases run in the order of [TEST_MODULES]; the stream holds the standard
    output, then the digest with the two distinct reasons in order. *)
Example main_plain_run :
  let r := main Examples.raises None Examples.gc_attribute Examples.fill 50
             Examples.resolve Examples.run_case Examples.standard_output []
             Examples.p0 in
  executed (fst r)
    = mjoin ((λ name, [name +:+ ".test_a"; name +:+ ".test_b"]) <$> TEST_MODULES) ∧
  stream (fst r)
    = ["OK"; "Some tests were skipped because: no lxml, no pep8"; newline] ∧
  calls (fst r) = [Logger_setLevel "tornado.access" 50; Handler_addFilter] ∧
  (∃ result, snd r = inr result ∧ length (skipped result) = 3%nat ∧
     testsRun result = 18%nat).
Proof.
  cbv zeta. split; [vm_compute; reflexivity|].
  split; [vm_compute; reflexivity|]. split; [vm_compute; reflexivity|].
  eexists. split; [vm_compute; reflexivity|]. split; reflexivity.
Qed.

(** The same run with [--ioloop=...] and [--debug_gc=...]: the callbacks call
    the collaborators in command-line order, then the event loop is
    configured. *)
Example main_configured_run :
  calls
    (fst (main Examples.raises (Some (Callable "time.monotonic"))
            Examples.gc_attribute Examples.fill 50 Examples.resolve
            Examples.run_case Examples.standard_output
            [set_debug_gc ["DEBUG_STATS"; "DEBUG_SAVEALL"];
             set_ioloop_time_monotonic true;
             set_httpclient "tornado.curl_httpclient.CurlAsyncHTTPClient"]
            Examples.p0))
    = [Logger_setLevel "tornado.access" 50;
       gc_set_debug (IntConst 33);
       AsyncHTTPClient_configure "tornado.curl_httpclient.CurlAsyncHTTPClient"
         {[ "allow_ipv6" := false ]};
       IOLoop_configure None (Some (Callable "time.monotonic"));
       Handler_addFilter].
Proof. vm_compute. reflexivity. Qed.

(** * Further properties *)

(** ** The counter on any stream, from any state *)

Lemma count_app (p : LogCounter.LogRecord → bool)
    (rs1 rs2 : list LogCounter.LogRecord) :
  LogCounter.count p (rs1 ++ rs2) = LogCounter.count p rs1 + LogCounter.count p rs2.
Proof.
  induction rs1 as [|r rs1 IH]; simpl app.
  - unfold LogCounter.count at 2. simpl. lia.
  - rewrite !count_cons, IH. lia.
Qed.

Lemma count_bounds (p : LogCounter.LogRecord → bool)
    (rs : list LogCounter.LogRecord) :
  0 ≤ LogCounter.count p rs ≤ Z.of_nat (length rs).
Proof.
  induction rs as [|r rs IH].
  - unfold LogCounter.count. simpl. lia.
  - rewrite count_cons. simpl length. destruct (p r); lia.
Qed.

(** The two tests of [filter] never both count a record, however the two
    level constants compare. *)
Lemma count_either (ERROR WARNING : Z) (rs : list LogCounter.LogRecord) :
  LogCounter.count (LogCounter.is_error ERROR) rs
  + LogCounter.count (LogCounter.is_warning ERROR WARNING) rs
  = LogCounter.count
      (λ r, (ERROR <=? LogCounter.levelno r) || (WARNING <=? LogCounter.levelno r))
      rs.
Proof.
  induction rs as [|r rs IH].
  - reflexivity.
  - rewrite !count_cons, <- IH.
    unfold LogCounter.is_error, LogCounter.is_warning.
    destruct (ERROR <=? LogCounter.levelno r),
      (WARNING <=? LogCounter.levelno r); simpl; lia.
Qed.

(** X1.  A counter that has already counted keeps its counts: observing a
    stream adds, to whatever the counter held, the number of error records
    and the number of warning records of the stream; observing two streams
    one after the other is observing their concatenation. *)
Theorem LogCounter_accumulates (ERROR WARNING : Z) (self : LogCounter.t)
    (rs1 rs2 : list LogCounter.LogRecord) :
  let c := LogCounter.observe ERROR WARNING self (rs1 ++ rs2) in
  c = LogCounter.observe ERROR WARNING
        (LogCounter.observe ERROR WARNING self rs1) rs2 ∧
  LogCounter.error_count c
    = LogCounter.error_count self
      + LogCounter.count (LogCounter.is_error ERROR) rs1
      + LogCounter.count (LogCounter.is_error ERROR) rs2 ∧
  LogCounter.warning_count c
    = LogCounter.warning_count self
      + LogCounter.count (LogCounter.is_warning ERROR WARNING) rs1
      + LogCounter.count (LogCounter.is_warning ERROR WARNING) rs2.
Proof.
  intros c. split.
  - unfold c, LogCounter.observe. apply foldl_app.
  - destruct (observe_counts ERROR WARNING self (rs1 ++ rs2)) as [He Hw].
    fold c in He, Hw. rewrite He, Hw, !count_app. lia.
Qed.

(** X2.  Whatever the values of the two level constants (also when
    [WARNING] is above [ERROR]), no record is counted twice and no count ever
    goes down: along any stream both counts only grow, and together they grow
    by the number of records at or above the lower of the two levels, which
    is at most the number of records. *)
Theorem LogCounter_counts_each_record_once (ERROR WARNING : Z)
    (self : LogCounter.t) (rs : list LogCounter.LogRecord) :
  let c := LogCounter.observe ERROR WARNING self rs in
  LogCounter.error_count self ≤ LogCounter.error_count c ∧
  LogCounter.warning_count self ≤ LogCounter.warning_count c ∧
  (LogCounter.error_count c - LogCounter.error_count self)
  + (LogCounter.warning_count c - LogCounter.warning_count self)
    = LogCounter.count (λ r, Z.min ERROR WARNING <=? LogCounter.levelno r) rs ∧
  (LogCounter.error_count c - LogCounter.error_count self)
  + (LogCounter.warning_count c - LogCounter.warning_count self)
    ≤ Z.of_nat (length rs).
Proof.
  intros c.
  destruct (observe_counts ERROR WARNING self rs) as [He Hw].
  fold c in He, Hw.
  pose proof (count_bounds (LogCounter.is_error ERROR) rs) as Be.
  pose proof (count_bounds (LogCounter.is_warning ERROR WARNING) rs) as Bw.
  pose proof (count_either ERROR WARNING rs) as Hsum.
  pose proof (count_bounds
    (λ r, (ERROR <=? LogCounter.levelno r) || (WARNING <=? LogCounter.levelno r))
    rs) as Bs.
  assert (Hmin : LogCounter.count
            (λ r, (ERROR <=? LogCounter.levelno r)
                  || (WARNING <=? LogCounter.levelno r)) rs
          = LogCounter.count
              (λ r, Z.min ERROR WARNING <=? LogCounter.levelno r) rs).
  { clear. induction rs as [|r rs IH]; [reflexivity|].
    rewrite !count_cons, IH. f_equal.
    destruct (Z.leb_spec ERROR (LogCounter.levelno r)),
      (Z.leb_spec WARNING (LogCounter.levelno r)),
      (Z.leb_spec (Z.min ERROR WARNING) (LogCounter.levelno r));
      simpl; lia. }
  repeat split; lia.
Qed.

(** ** The digest as a function of the set of reasons *)

(** X3.  The digest depends only on which reasons occur: two results whose
    skipped tests have the same reasons give the same digest, whatever the
    tests are, in whatever order they were skipped and however often each
    reason occurs. *)
Theorem digest_depends_on_reasons_only (textwrap_fill : string → string)
    (a b : TestResult) :
  (∀ reason, (∃ t, (t, reason) ∈ skipped a) ↔ (∃ t, (t, reason) ∈ skipped b)) →
  sorted (skip_reasons a) = sorted (skip_reasons b) ∧
  digest textwrap_fill a = digest textwrap_fill b.
Proof.
  intros Hsame.
  assert (Hset : skip_reasons a = skip_reasons b).
  { apply set_eq. intros reason. rewrite !elem_of_skip_reasons. apply Hsame. }
  unfold digest. rewrite Hset. split; reflexivity.
Qed.

Lemma digest_depends_on_reasons_only_witness :
  let a := {| skipped := [("A.test_1", "no network"); ("A.test_2", "no lxml");
                          ("B.test_1", "no network")];
              failures := []; errors := []; testsRun := 3 |} in
  let b := {| skipped := [("C.test_9", "no lxml"); ("C.test_3", "no network")];
              failures := [("C.test_1", "boom")]; errors := [];
              testsRun := 5 |} in
  (∀ reason, (∃ t, (t, reason) ∈ skipped a) ↔ (∃ t, (t, reason) ∈ skipped b)) ∧
  digest Examples.fill a = digest Examples.fill b.
Proof.
  cbv zeta.
  match goal with |- ?H ∧ _ => assert (Hsame : H) end.
  { intros reason. simpl. split; intros [t Ht].
    - apply elem_of_cons in Ht as [Ht|Ht];
        [injection Ht as -> ->; exists "C.test_3";
         apply list_elem_of_further, list_elem_of_here|].
      apply elem_of_cons in Ht as [Ht|Ht];
        [injection Ht as -> ->; exists "C.test_9"; apply list_elem_of_here|].
      apply elem_of_cons in Ht as [Ht|Ht];
        [injection Ht as -> ->; exists "C.test_3";
         apply list_elem_of_further, list_elem_of_here|].
      destruct (proj1 (elem_of_nil _) Ht).
    - apply elem_of_cons in Ht as [Ht|Ht];
        [injection Ht as -> ->; exists "A.test_2";
         apply list_elem_of_further, list_elem_of_here|].
      apply elem_of_cons in Ht as [Ht|Ht];
        [injection Ht as -> ->; exists "A.test_1"; apply list_elem_of_here|].
      destruct (proj1 (elem_of_nil _) Ht). }
  split; [exact Hsame|].
  exact (proj2 (digest_depends_on_reasons_only Examples.fill _ _ Hsame)).
Defined.

(** X4.  When all the skipped tests share one reason, the text given to
    [textwrap.fill] is the fixed opening followed by that reason alone, with
    no separator, however many tests were skipped. *)
Theorem digest_of_one_reason (textwrap_fill : string → string)
    (result : TestResult) (reason : string) :
  skipped result ≠ [] →
  (∀ t r, (t, r) ∈ skipped result → r = reason) →
  sorted (skip_reasons result) = [reason] ∧
  digest textwrap_fill result
    = textwrap_fill ("Some tests were skipped because: " +:+ reason).
Proof.
  intros Hne Hall.
  assert (Hset : skip_reasons result = {[ reason ]}).
  { apply set_eq. intros r. rewrite elem_of_skip_reasons, elem_of_singleton.
    split.
    - intros [t Ht]. by apply (Hall t).
    - intros ->. destruct (skipped result) as [|[t r] rest]; [done|].
      exists t. rewrite (Hall t r) by apply list_elem_of_here.
      apply list_elem_of_here. }
  assert (Hsorted : sorted (skip_reasons result) = [reason]).
  { unfold sorted. rewrite Hset, elements_singleton. reflexivity. }
  split; [exact Hsorted|]. unfold digest. rewrite Hsorted. reflexivity.
Qed.

Lemma digest_of_one_reason_witness :
  let result := {| skipped := [("A.test_1", "no network");
                               ("A.test_2", "no network");
                               ("B.test_1", "no network")];
                   failures := []; errors := []; testsRun := 3 |} in
  skipped result ≠ [] ∧
  (∀ t r, (t, r) ∈ skipped result → r = "no network") ∧
  digest Examples.fill result = "Some tests were skipped because: no network".
Proof.
  cbv zeta.
  match goal with |- ?H1 ∧ ?H2 ∧ _ => assert (Hne : H1); [|assert (Hall : H2)] end.
  - discriminate.
  - intros t r Ht. simpl in Ht.
    repeat (apply elem_of_cons in Ht as [Ht|Ht]; [by injection Ht as _ ->|]).
    destruct (proj1 (elem_of_nil _) Ht).
  - split; [exact Hne|]. split; [exact Hall|].
    exact (proj2 (digest_of_one_reason Examples.fill _ _ Hne Hall)).
Defined.

(** ** The [debug_gc] callback: which bits, which failures *)

Lemma testbit_foldl_lor (z : Z) (ints : list Z) (n : Z) :
  Z.testbit (foldl Z.lor z ints) n
    = Z.testbit z n || existsb (λ i, Z.testbit i n) ints.
Proof.
  revert z. induction ints as [|i ints IH]; intros z; simpl.
  - by rewrite orb_false_r.
  - rewrite IH, Z.lor_spec, orb_assoc. reflexivity.
Qed.

Lemma named_constants (gc_attribute : string → option attr)
    (values : list string) (ints : list Z) :
  Forall2 (λ v i, gc_attribute v = Some (IntConst i)) values ints →
  ∀ i, i ∈ ints ↔ ∃ v, v ∈ values ∧ gc_attribute v = Some (IntConst i).
Proof.
  induction 1 as [|v j vs js Hv _ IH]; intros i.
  - split; [intros H; destruct (proj1 (elem_of_nil _) H)|].
    intros (v & H & _). destruct (proj1 (elem_of_nil _) H).
  - rewrite elem_of_cons, IH. split.
    + intros [->|(w & Hw & Hi)].
      * exists v. split; [apply list_elem_of_here | exact Hv].
      * exists w. split; [by apply list_elem_of_further | exact Hi].
    + intros (w & Hw & Hi). apply elem_of_cons in Hw as [->|Hw].
      * left. congruence.
      * right. by exists w.
Qed.

(** The callback on names that all stand for integer constants: one call. *)
Lemma debug_gc_callback_ints (raises : call → option exn)
    (gc_attribute : string → option attr) (values : list string)
    (first : Z) (rest : list Z) (p : process) :
  Forall2 (λ v i, gc_attribute v = Some (IntConst i)) values (first :: rest) →
  debug_gc_callback raises gc_attribute values p
    = invoke raises (gc_set_debug (IntConst (foldl Z.lor first rest))) p.
Proof.
  intros H. inversion H as [|v i vs is_ Hv Hrest]; subst.
  unfold debug_gc_callback, getattr_gc. rewrite Hv.
  rewrite (run_bind_ok _ _ p p (IntConst first)) by reflexivity.
  rewrite (run_bind_ok _ _ p p (IntConst (foldl Z.lor first rest)))
    by by apply reduce_or__ints.
  reflexivity.
Qed.

(** X5.  For a non-empty list of names of integer constants, the value given
    to [gc.set_debug] has exactly the bits of the named constants: a bit is
    set in it if and only if it is set in one of them.  So the order of the
    names and their repetition do not matter: any other such list with the
    same names makes the same call. *)
Theorem debug_gc_flags_are_the_union (raises : call → option exn)
    (gc_attribute : string → option attr)
    (values : list string) (ints : list Z) (p : process) :
  values ≠ [] →
  Forall2 (λ v i, gc_attribute v = Some (IntConst i)) values ints →
  ∃ flags,
    calls (fst (debug_gc_callback raises gc_attribute values p))
      = calls p ++ [gc_set_debug (IntConst flags)] ∧
    (∀ n, Z.testbit flags n = true ↔ ∃ i, i ∈ ints ∧ Z.testbit i n = true) ∧
    (∀ values' ints',
       values' ≠ [] →
       Forall2 (λ v i, gc_attribute v = Some (IntConst i)) values' ints' →
       (∀ v, v ∈ values' ↔ v ∈ values) →
       debug_gc_callback raises gc_attribute values' p
         = debug_gc_callback raises gc_attribute values p).
Proof.
  intros Hne H.
  assert (Hbits : ∀ vs js f r,
            Forall2 (λ v i, gc_attribute v = Some (IntConst i)) vs js →
            js = f :: r →
            ∀ n, Z.testbit (foldl Z.lor f r) n = true
                 ↔ ∃ i, i ∈ js ∧ Z.testbit i n = true).
  { intros vs js f r _ -> n. rewrite testbit_foldl_lor, orb_true_iff, existsb_exists.
    split.
    - intros [Hf|(i & Hi & Hn)].
      + exists f. split; [apply list_elem_of_here | exact Hf].
      + exists i. split; [apply list_elem_of_further, list_elem_of_In, Hi | exact Hn].
    - intros (i & Hi & Hn). apply elem_of_cons in Hi as [->|Hi]; [by left|].
      right. exists i. split; [by apply list_elem_of_In | exact Hn]. }
  destruct ints as [|first rest]; [inversion H; by subst|].
  exists (foldl Z.lor first rest). split; [|split].
  - rewrite (debug_gc_callback_ints _ _ _ _ _ _ H), run_invoke. reflexivity.
  - by apply (Hbits values).
  - intros values' ints' Hne' H' Hsame.
    destruct ints' as [|first' rest']; [inversion H'; by subst|].
    rewrite (debug_gc_callback_ints _ _ _ _ _ _ H),
      (debug_gc_callback_ints _ _ _ _ _ _ H').
    do 3 f_equal. apply Z.bits_inj. intros n. apply eq_true_iff_eq.
    rewrite (Hbits _ _ _ _ H' eq_refl n), (Hbits _ _ _ _ H eq_refl n).
    split; intros (i & Hi & Hn); exists i; (split; [|exact Hn]).
    + apply (named_constants _ _ _ H). apply (named_constants _ _ _ H') in Hi.
      destruct Hi as (v & Hv & Hi). exists v. split; [by apply Hsame | exact Hi].
    + apply (named_constants _ _ _ H'). apply (named_constants _ _ _ H) in Hi.
      destruct Hi as (v & Hv & Hi). exists v. split; [by apply Hsame | exact Hi].
Qed.

Lemma debug_gc_flags_are_the_union_witness :
  let values := ["DEBUG_SAVEALL"; "DEBUG_STATS"] in
  let values' := ["DEBUG_STATS"; "DEBUG_SAVEALL"; "DEBUG_STATS"] in
  values ≠ [] ∧
  Forall2 (λ v i, Examples.gc_attribute v = Some (IntConst i)) values [32; 1] ∧
  debug_gc_callback Examples.raises Examples.gc_attribute values' Examples.p0
    = debug_gc_callback Examples.raises Examples.gc_attribute values Examples.p0.
Proof.
  cbv zeta.
  assert (H1 : ["DEBUG_SAVEALL"; "DEBUG_STATS"] ≠ @nil string) by discriminate.
  assert (H2 : Forall2 (λ v i, Examples.gc_attribute v = Some (IntConst i))
                 ["DEBUG_SAVEALL"; "DEBUG_STATS"] [32; 1])
    by (repeat constructor).
  split; [exact H1|]. split; [exact H2|].
  destruct (debug_gc_flags_are_the_union Examples.raises Examples.gc_attribute
              _ _ Examples.p0 H1 H2) as (flags & _ & _ & Hsame).
  apply (Hsame ["DEBUG_STATS"; "DEBUG_SAVEALL"; "DEBUG_STATS"] [1; 32; 1]).
  - discriminate.
  - repeat constructor.
  - intros v. rewrite !elem_of_cons. pose proof (elem_of_nil v). tauto.
Defined.






(** That callback, and a whole run with the option, in full. *)
Example debug_gc_unknown_name_run :
  debug_gc_callback Examples.raises Examples.gc_attribute
    ["DEBUG_STATS"; "DEBUG_OBJECTS"; "DEBUG_SAVEALL"] Examples.p0
    = (Examples.p0, inl (AttributeError "DEBUG_OBJECTS")) ∧
  debug_gc_callback Examples.raises Examples.gc_attribute
    ["DEBUG_STATS"; "collect"; "DEBUG_OBJECTS"] Examples.p0
    = (Examples.p0, inl (TypeError "unsupported operand type(s) for |")) ∧
  main Examples.raises None Examples.gc_attribute Examples.fill 50
    Examples.resolve Examples.run_case Examples.standard_output
    [set_httpclient "x"; set_debug_gc ["DEBUG_OBJECTS"]; set_locale "C"]
    Examples.p0
  = ({| filters := main_filters;
        options := resolved defaults
                     [set_httpclient "x"; set_debug_gc ["DEBUG_OBJECTS"]];
        calls := [Logger_setLevel "tornado.access" 50;
                  AsyncHTTPClient_configure "x" {[ "allow_ipv6" := false ]}];
        executed := []; stream := [] |},
     inl (AttributeError "DEBUG_OBJECTS")).
Proof. repeat split; vm_compute; reflexivity. Qed.

(** ** When the event loop is configured *)

(** X7.  Where the clock is there whenever it is asked for,
    [configure_ioloop] does not raise of its own and calls [IOLoop.configure]
    at most once: exactly when [ioloop] is a non-empty string or
    [ioloop_time_monotonic] is set.  An empty [ioloop] counts as none given;
    with the monotonic clock asked for and no [ioloop] the call is still
    made, with [None] for the class; [time_func] is passed exactly when the
    monotonic clock was asked for.  Nothing but the list of calls changes. *)
Theorem configure_ioloop_calls (raises : call → option exn)
    (monotonic_time : option callable) (p : process) :
  (ioloop_time_monotonic (options p) = true → is_Some monotonic_time) →
  let o := options p in
  let wanted := truthy (ioloop o) || ioloop_time_monotonic o in
  let c := IOLoop_configure (ioloop o)
             (if ioloop_time_monotonic o then monotonic_time else None) in
  let r := configure_ioloop raises monotonic_time p in
  calls (fst r) = calls p ++ (if wanted then [c] else []) ∧
  snd r = (if wanted
           then match raises c with Some e => inl e | None => inr () end
           else inr ()) ∧
  filters (fst r) = filters p ∧ options (fst r) = options p ∧
  executed (fst r) = executed p ∧ stream (fst r) = stream p ∧
  (ioloop o = Some "" → ioloop_time_monotonic o = false → r = (p, inr ())).
Proof.
  intros Hclock o wanted c r. subst o wanted c r.
  unfold configure_ioloop, mbind, M_bind, get_options.
  destruct (ioloop_time_monotonic (options p)) eqn:Hm.
  - destruct (Hclock eq_refl) as [f ->]. simpl.
    rewrite orb_true_r. rewrite run_invoke. simpl.
    repeat split; try reflexivity. intros _ H. discriminate H.
  - simpl. rewrite orb_false_r.
    destruct (truthy (ioloop (options p))) eqn:Ht.
    + rewrite run_invoke. simpl. repeat split; try reflexivity.
      intros Hempty. rewrite Hempty in Ht. discriminate Ht.
    + simpl. rewrite app_nil_r. repeat split; reflexivity.
Qed.

Lemma configure_ioloop_calls_witness :
  let p := fst (set_options
                  (resolved defaults [set_ioloop ""; set_ioloop_time_monotonic true])
                  Examples.p0) in
  (ioloop_time_monotonic (options p) = true
   → is_Some (Some (Callable "time.monotonic"))) ∧
  calls (fst (configure_ioloop Examples.raises
                (Some (Callable "time.monotonic")) p))
    = [IOLoop_configure (Some "") (Some (Callable "time.monotonic"))].
Proof.
  cbv zeta.
  match goal with |- ?H ∧ _ => assert (Hclock : H) by (intros _; by eexists) end.
  split; [exact Hclock|].
  exact (proj1 (configure_ioloop_calls Examples.raises
                  (Some (Callable "time.monotonic")) _ Hclock)).
Defined.

(** ** What the filters of [main] decide *)

Section Policy.
Variables module_match message_match : string → string → bool.
Variable ev : warnings.event.

Abbreviation classify' := (warnings.classify module_match message_match).
Abbreviation is_a := (warnings.issubclass (warnings.category ev)).

(** The rules of [main] registered after a rule that matches are the only
    ones that can still change the action. *)
Lemma classify_main_from (k : nat) (b : warnings.rule)
    (ambient : warnings.action) (pre : list warnings.rule) :
  main_filters !! k = Some b →
  warnings.matches module_match message_match ev b = true →
  classify' ambient (pre ++ main_filters) ev
    = classify' (warnings.r_action b) (drop (S k) main_filters) ev.
Proof.
  intros Hk Hb.
  rewrite <- (take_drop_middle main_filters k b Hk) at 1.
  rewrite app_assoc. by apply classify_shadow.
Qed.

Lemma is_a_true (cat : string) : cat ∈ warnings.category ev → is_a cat = true.
Proof. intros H. by apply bool_decide_eq_true_2. Qed.

Lemma is_a_false (cat : string) : cat ∉ warnings.category ev → is_a cat = false.
Proof. intros H. by apply bool_decide_eq_false_2. Qed.

Ltac scan_rules :=
  unfold warnings.classify;
  match goal with
  | |- context [reverse ?l] =>
      let l' := eval vm_compute in (reverse l) in
      change (reverse l) with l'
  end;
  cbn [warnings.scan];
  unfold warnings.matches, warnings.pattern_matches;
  cbn [warnings.r_action warnings.r_message warnings.r_category
       warnings.r_module].

Lemma deprecation_table (ambient : warnings.action) (pre : list warnings.rule) :
  "DeprecationWarning" ∈ warnings.category ev →
  ("PendingDeprecationWarning" ∉ warnings.category ev) →
  ("BytesWarning" ∉ warnings.category ev) →
  classify' ambient (pre ++ main_filters) ev
    = if message_match "Please use assert.* instead" (warnings.message ev)
      then warnings.ignore
      else if module_match "tornado\..*" (warnings.module ev)
      then if message_match "gen.Task is deprecated" (warnings.message ev)
              || message_match "StackContext is deprecated" (warnings.message ev)
              || message_match "@asynchronous is deprecated" (warnings.message ev)
              || message_match "callback arguments are deprecated"
                   (warnings.message ev)
           then warnings.ignore else warnings.error
      else warnings.ignore.
Proof.
  intros HD HP HB.
  rewrite (classify_main_from 2 _ ambient pre eq_refl).
  2:{ unfold warnings.matches. simpl. by rewrite (is_a_true _ HD). }
  scan_rules.
  rewrite (is_a_true _ HD), (is_a_false _ HP), (is_a_false _ HB).
  rewrite !andb_false_r, !andb_true_r. cbn [andb].
  destruct (message_match "Please use assert.* instead" _); [reflexivity|].
  destruct (module_match "tornado\..*" _); rewrite ?andb_false_r, ?andb_true_r;
    [|reflexivity].
  destruct (message_match "callback arguments are deprecated" _);
    [by rewrite !orb_true_r|].
  destruct (message_match "@asynchronous is deprecated" _);
    [by rewrite !orb_true_r|].
  destruct (message_match "StackContext is deprecated" _);
    [by rewrite !orb_true_r|].
  destruct (message_match "gen.Task is deprecated" _); reflexivity.
Qed.

Lemma pending_deprecation_table (ambient : warnings.action)
    (pre : list warnings.rule) :
  "PendingDeprecationWarning" ∈ warnings.category ev →
  ("DeprecationWarning" ∉ warnings.category ev) →
  ("BytesWarning" ∉ warnings.category ev) →
  classify' ambient (pre ++ main_filters) ev
    = if message_match "Please use assert.* instead" (warnings.message ev)
      then warnings.ignore
      else if module_match "tornado\..*" (warnings.module ev)
      then warnings.error
      else warnings.ignore.
Proof.
  intros HP HD HB.
  rewrite (classify_main_from 8 _ ambient pre eq_refl).
  2:{ unfold warnings.matches. simpl. by rewrite (is_a_true _ HP). }
  scan_rules.
  rewrite (is_a_true _ HP), (is_a_false _ HD), (is_a_false _ HB).
  rewrite !andb_false_r, !andb_true_r. cbn [andb].
  destruct (message_match "Please use assert.* instead" _); [reflexivity|].
  destruct (module_match "tornado\..*" _); reflexivity.
Qed.

Lemma other_categories_table (ambient : warnings.action)
    (pre : list warnings.rule) :
  "Warning" ∈ warnings.category ev →
  ("DeprecationWarning" ∉ warnings.category ev) →
  ("PendingDeprecationWarning" ∉ warnings.category ev) →
  classify' ambient (pre ++ main_filters) ev
    = if is_a "BytesWarning"
         && module_match "twisted\..*" (warnings.module ev)
      then warnings.ignore
      else if is_a "ImportWarning" then warnings.ignore
      else warnings.error.
Proof.
  intros HW HD HP.
  rewrite (classify_main_from 0 _ ambient pre eq_refl).
  2:{ unfold warnings.matches. simpl. by rewrite (is_a_true _ HW). }
  scan_rules.
  rewrite (is_a_false _ HD), (is_a_false _ HP).
  rewrite !andb_false_r. cbn [andb].
  destruct (is_a "BytesWarning" && module_match "twisted\..*" _);
    [reflexivity|].
  destruct (is_a "ImportWarning"); reflexivity.
Qed.
End Policy.

(** X8.  Under the filters that [main] leaves installed (last match wins), a
    deprecation warning (one that is neither pending nor a bytes warning) is
    ignored when its message matches [Please use assert.* instead]; otherwise
    it is an error when it comes from a module matching [tornado\..*], unless
    its message matches one of the four named tornado deprecations, and it is
    ignored when it comes from any other module.  Earlier filters and the
    ambient default have no say. *)
Theorem deprecation_warnings_policy
    (module_match message_match : string → string → bool)
    (ambient : warnings.action) (ev : warnings.event)
    (raises : call → option exn) (monotonic_time : option callable)
    (gc_attribute : string → option attr) (textwrap_fill : string → string)
    (CRITICAL : Z) (resolve : string → option (list string))
    (run_case : string → outcome) (standard_output : TestResult → list string)
    (argv : list setting) (p : process) :
  "DeprecationWarning" ∈ warnings.category ev →
  ("PendingDeprecationWarning" ∉ warnings.category ev) →
  ("BytesWarning" ∉ warnings.category ev) →
  warnings.classify module_match message_match ambient
    (filters
       (fst (main raises monotonic_time gc_attribute textwrap_fill CRITICAL
               resolve run_case standard_output argv p))) ev
    = if message_match "Please use assert.* instead" (warnings.message ev)
      then warnings.ignore
      else if module_match "tornado\..*" (warnings.module ev)
      then if message_match "gen.Task is deprecated" (warnings.message ev)
              || message_match "StackContext is deprecated" (warnings.message ev)
              || message_match "@asynchronous is deprecated" (warnings.message ev)
              || message_match "callback arguments are deprecated"
                   (warnings.message ev)
           then warnings.ignore else warnings.error
      else warnings.ignore.
Proof.
  intros HD HP HB. rewrite main_installs_filters. by apply deprecation_table.
Qed.

Lemma deprecation_warnings_policy_witness :
  let ev := Examples.warning "DeprecationWarning" "tornado.web"
              "The finish callback is deprecated" in
  "DeprecationWarning" ∈ warnings.category ev ∧
  ("PendingDeprecationWarning" ∉ warnings.category ev) ∧
  ("BytesWarning" ∉ warnings.category ev) ∧
  warnings.classify re.module_match re.message_match warnings.default
    (filters
       (fst (main Examples.raises None Examples.gc_attribute Examples.fill 50
               Examples.resolve Examples.run_case Examples.standard_output []
               Examples.p0))) ev
    = warnings.error.
Proof.
  cbv zeta.
  match goal with |- ?A ∧ ?B ∧ ?C ∧ _ =>
    assert (HD : A) by apply list_elem_of_here;
    assert (HP : B)
      by (intros H; repeat (apply elem_of_cons in H as [H|H]; [discriminate H|]);
          destruct (proj1 (elem_of_nil _) H));
    assert (HB : C)
      by (intros H; repeat (apply elem_of_cons in H as [H|H]; [discriminate H|]);
          destruct (proj1 (elem_of_nil _) H))
  end.
  split; [exact HD|]. split; [exact HP|]. split; [exact HB|].
  rewrite (deprecation_warnings_policy re.module_match re.message_match
             warnings.default _ Examples.raises None Examples.gc_attribute
             Examples.fill 50 Examples.resolve Examples.run_case
             Examples.standard_output [] Examples.p0 HD HP HB).
  reflexivity.
Defined.

(** X9.  Under the filters that [main] leaves installed, a pending
    deprecation warning (one that is neither a deprecation nor a bytes
    warning) is ignored when its message matches
    [Please use assert.* instead]; otherwise it is an error when it comes
    from a module matching [tornado\..*], whatever its message, and it is
    ignored when it comes from any other module. *)
Theorem pending_deprecation_warnings_policy
    (module_match message_match : string → string → bool)
    (ambient : warnings.action) (ev : warnings.event)
    (raises : call → option exn) (monotonic_time : option callable)
    (gc_attribute : string → option attr) (textwrap_fill : string → string)
    (CRITICAL : Z) (resolve : string → option (list string))
    (run_case : string → outcome) (standard_output : TestResult → list string)
    (argv : list setting) (p : process) :
  "PendingDeprecationWarning" ∈ warnings.category ev →
  ("DeprecationWarning" ∉ warnings.category ev) →
  ("BytesWarning" ∉ warnings.category ev) →
  warnings.classify module_match message_match ambient
    (filters
       (fst (main raises monotonic_time gc_attribute textwrap_fill CRITICAL
               resolve run_case standard_output argv p))) ev
    = if message_match "Please use assert.* instead" (warnings.message ev)
      then warnings.ignore
      else if module_match "tornado\..*" (warnings.module ev)
      then warnings.error
      else warnings.ignore.
Proof.
  intros HP HD HB. rewrite main_installs_filters.
  by apply pending_deprecation_table.
Qed.

Lemma pending_deprecation_warnings_policy_witness :
  let ev := Examples.warning "PendingDeprecationWarning" "tornado.gen"
              "gen.Task is deprecated" in
  "PendingDeprecationWarning" ∈ warnings.category ev ∧
  ("DeprecationWarning" ∉ warnings.category ev) ∧
  ("BytesWarning" ∉ warnings.category ev) ∧
  warnings.classify re.module_match re.message_match warnings.default
    (filters
       (fst (main Examples.raises None Examples.gc_attribute Examples.fill 50
               Examples.resolve Examples.run_case Examples.standard_output []
               Examples.p0))) ev
    = warnings.error.
Proof.
  cbv zeta.
  match goal with |- ?A ∧ ?B ∧ ?C ∧ _ =>
    assert (HP : A) by apply list_elem_of_here;
    assert (HD : B)
      by (intros H; repeat (apply elem_of_cons in H as [H|H]; [discriminate H|]);
          destruct (proj1 (elem_of_nil _) H));
    assert (HB : C)
      by (intros H; repeat (apply elem_of_cons in H as [H|H]; [discriminate H|]);
          destruct (proj1 (elem_of_nil _) H))
  end.
  split; [exact HP|]. split; [exact HD|]. split; [exact HB|].
  rewrite (pending_deprecation_warnings_policy re.module_match re.message_match
             warnings.default _ Examples.raises None Examples.gc_attribute
             Examples.fill 50 Examples.resolve Examples.run_case
             Examples.standard_output [] Examples.p0 HP HD HB).
  reflexivity.
Defined.

(** X10.  Under the filters that [main] leaves installed, a warning that is
    neither a deprecation nor a pending deprecation is ignored when it is a
    bytes warning from a module matching [twisted\..*], ignored when it is an
    import warning, and an error in every other case, whatever its message:
    resource warnings, user warnings and bytes warnings from elsewhere all
    fail the test that raises them. *)
Theorem other_warnings_policy
    (module_match message_match : string → string → bool)
    (ambient : warnings.action) (ev : warnings.event)
    (raises : call → option exn) (monotonic_time : option callable)
    (gc_attribute : string → option attr) (textwrap_fill : string → string)
    (CRITICAL : Z) (resolve : string → option (list string))
    (run_case : string → outcome) (standard_output : TestResult → list string)
    (argv : list setting) (p : process) :
  "Warning" ∈ warnings.category ev →
  ("DeprecationWarning" ∉ warnings.category ev) →
  ("PendingDeprecationWarning" ∉ warnings.category ev) →
  warnings.classify module_match message_match ambient
    (filters
       (fst (main raises monotonic_time gc_attribute textwrap_fill CRITICAL
               resolve run_case standard_output argv p))) ev
    = if warnings.issubclass (warnings.category ev) "BytesWarning"
         && module_match "twisted\..*" (warnings.module ev)
      then warnings.ignore
      else if warnings.issubclass (warnings.category ev) "ImportWarning"
      then warnings.ignore
      else warnings.error.
Proof.
  intros HW HD HP. rewrite main_installs_filters.
  by apply other_categories_table.
Qed.

Lemma other_warnings_policy_witness :
  let ev := Examples.warning "BytesWarning" "tortik.page"
              "str() on a bytes instance" in
  "Warning" ∈ warnings.category ev ∧
  ("DeprecationWarning" ∉ warnings.category ev) ∧
  ("PendingDeprecationWarning" ∉ warnings.category ev) ∧
  warnings.classify re.module_match re.message_match warnings.default
    (filters
       (fst (main Examples.raises None Examples.gc_attribute Examples.fill 50
               Examples.resolve Examples.run_case Examples.standard_output []
               Examples.p0))) ev
    = warnings.error.
Proof.
  cbv zeta.
  match goal with |- ?A ∧ ?B ∧ ?C ∧ _ =>
    assert (HW : A) by apply list_elem_of_further, list_elem_of_here;
    assert (HD : B)
      by (intros H; repeat (apply elem_of_cons in H as [H|H]; [discriminate H|]);
          destruct (proj1 (elem_of_nil _) H));
    assert (HP : C)
      by (intros H; repeat (apply elem_of_cons in H as [H|H]; [discriminate H|]);
          destruct (proj1 (elem_of_nil _) H))
  end.
  split; [exact HW|]. split; [exact HD|]. split; [exact HP|].
  rewrite (other_warnings_policy re.module_match re.message_match
             warnings.default _ Examples.raises None Examples.gc_attribute
             Examples.fill 50 Examples.resolve Examples.run_case
             Examples.standard_output [] Examples.p0 HW HD HP).
  reflexivity.
Defined.

(** ** The configuration calls of a run, in order *)

(** The call that the callback of an option makes ([ioloop] and
    [ioloop_time_monotonic] have no callback; [debug_gc] is treated
    apart). *)
Definition callback_call (x : setting) : list call :=
  match x with
  | set_httpclient s => [AsyncHTTPClient_configure s {[ "allow_ipv6" := false ]}]
  | set_httpserver s => [HTTPServer_configure s]
  | set_resolver s => [Resolver_configure s]
  | set_locale x => [locale_setlocale x]
  | set_ioloop _ | set_ioloop_time_monotonic _ | set_debug_gc _ => []
  end.

(** The call that [configure_ioloop] makes for the options [o]. *)
Definition ioloop_call (monotonic_time : option callable) (o : options_t)
    : list call :=
  if truthy (ioloop o) || ioloop_time_monotonic o
  then [IOLoop_configure (ioloop o)
          (if ioloop_time_monotonic o then monotonic_time else None)]
  else [].

Lemma calls_write text : keeps calls (write text).
Proof. intros p. reflexivity. Qed.
Lemma calls_mark_executed test : keeps calls (mark_executed test).
Proof. intros p. reflexivity. Qed.
#[global] Hint Resolve calls_write calls_mark_executed : keeps.

Lemma calls_run_cases run_case suite r :
  keeps calls (run_cases run_case suite r).
Proof. revert r. induction suite as [|t rest IH]; intros r; simpl; keeps. Qed.

Lemma calls_write_all lines : keeps calls (write_all lines).
Proof. induction lines as [|l rest IH]; simpl; keeps. Qed.
#[global] Hint Resolve calls_run_cases calls_write_all : keeps.

Lemma calls_load_and_run textwrap_fill resolve run_case standard_output :
  keeps calls
    (all resolve
     ≫= run textwrap_fill (TextTestRunner_run run_case standard_output)).
Proof. unfold run, TextTestRunner_run. keeps. Qed.

Section Trace.
Variable raises : call → option exn.
Variable monotonic_time : option callable.
Variable gc_attribute : string → option attr.
Hypothesis never_raises : ∀ c, raises c = None.

Lemma callback_trace x q :
  (∀ values, x ≠ set_debug_gc values) →
  let r := callback raises gc_attribute x q in
  snd r = inr () ∧ calls (fst r) = calls q ++ callback_call x ∧
  options (fst r) = options q.
Proof using never_raises.
  intros Hx. destruct x; simpl; unfold httpclient_callback;
    rewrite ?run_invoke, ?never_raises; simpl; rewrite ?app_nil_r;
    try done.
  destruct (Hx values eq_refl).
Qed.

Lemma parse_args_trace argv q :
  (∀ values, set_debug_gc values ∉ argv) →
  let r := parse_args raises gc_attribute argv q in
  snd r = inr () ∧
  calls (fst r) = calls q ++ mjoin (callback_call <$> argv) ∧
  options (fst r) = resolved (options q) argv.
Proof using never_raises.
  revert q. induction argv as [|x rest IH]; intros q Hargv; simpl.
  - by rewrite app_nil_r.
  - unfold mbind, M_bind, get_options, set_options.
    match goal with |- context [callback _ _ x ?q2] =>
      destruct (callback_trace x q2) as (Hr & Hc & Ho);
        [intros values ->; apply (Hargv values), list_elem_of_here|];
      destruct (callback raises gc_attribute x q2) as [q3 [e|[]]];
        [discriminate Hr|]
    end.
    simpl in Hc, Ho.
    destruct (IH q3) as (Hr' & Hc' & Ho').
    { intros values Hin. by apply (Hargv values), list_elem_of_further. }
    simpl in Hr', Hc', Ho'.
    split; [exact Hr'|]. split.
    + rewrite Hc', Hc, <- app_assoc. reflexivity.
    + rewrite Ho', Ho. reflexivity.
Qed.

Lemma configure_ioloop_trace q :
  (ioloop_time_monotonic (options q) = true → is_Some monotonic_time) →
  let r := configure_ioloop raises monotonic_time q in
  snd r = inr () ∧
  calls (fst r) = calls q ++ ioloop_call monotonic_time (options q).
Proof using never_raises.
  intros Hclock. unfold configure_ioloop, ioloop_call, mbind, M_bind,
    get_options.
  destruct (ioloop_time_monotonic (options q)) eqn:Hm.
  - destruct (Hclock eq_refl) as [f ->]. simpl. rewrite orb_true_r.
    rewrite run_invoke, never_raises. done.
  - simpl. rewrite orb_false_r.
    destruct (truthy (ioloop (options q))).
    + rewrite run_invoke, never_raises. done.
    + simpl. by rewrite app_nil_r.
Qed.
End Trace.

(** X11.  When no collaborator call raises and the monotonic clock is there
    if asked for, the configuration calls of a run are, in this order: the
    access logger is silenced; each option that has a callback makes its one
    call, in command-line order; [IOLoop.configure] is called, if at all,
    with the values the whole command line resolves to, so it does not matter
    in which order, or how often, [ioloop] and [ioloop_time_monotonic] were
    given; the log counter is attached last.  Loading and running the tests
    adds no call, whether the suite loads or not. *)
Theorem configuration_calls_in_order (raises : call → option exn)
    (monotonic_time : option callable)
    (gc_attribute : string → option attr) (textwrap_fill : string → string)
    (CRITICAL : Z) (resolve : string → option (list string))
    (run_case : string → outcome) (standard_output : TestResult → list string)
    (argv : list setting) (p : process) :
  (∀ c, raises c = None) →
  (∀ values, set_debug_gc values ∉ argv) →
  (ioloop_time_monotonic (resolved defaults argv) = true
   → is_Some monotonic_time) →
  calls (fst (main raises monotonic_time gc_attribute textwrap_fill CRITICAL
                resolve run_case standard_output argv p))
    = calls p
      ++ [Logger_setLevel "tornado.access" CRITICAL]
      ++ mjoin (callback_call <$> argv)
      ++ ioloop_call monotonic_time (resolved defaults argv)
      ++ [Handler_addFilter].
Proof.
  intros Hraises Hargv Hclock.
  rewrite main_run.
  set (q := fst (set_filters _ p)).
  assert (Hq : calls q = calls p) by reflexivity. clearbody q.
  rewrite run_bind, run_invoke, Hraises, run_bind.
  unfold set_options, log_call. cbn [fst].
  match goal with |- calls (fst (tornado_testing_main _ _ _ _ _ _ _ _ ?q')) = _ =>
    set (q0 := q')
  end.
  assert (Hq0 : calls q0 = calls p ++ [Logger_setLevel "tornado.access" CRITICAL]
                ∧ options q0 = defaults) by (split; [simpl; by rewrite Hq | done]).
  destruct Hq0 as [Hc0 Ho0]. clearbody q0.
  unfold tornado_testing_main.
  destruct (parse_args_trace raises gc_attribute Hraises argv q0 Hargv)
    as (Hr1 & Hc1 & Ho1).
  rewrite run_bind.
  destruct (parse_args raises gc_attribute argv q0) as [q1 [e|[]]];
    [discriminate Hr1|].
  simpl in Hc1, Ho1. rewrite Ho0 in Ho1.
  unfold run_parse_callbacks.
  destruct (configure_ioloop_trace raises monotonic_time Hraises q1)
    as (Hr2 & Hc2); [by rewrite Ho1|].
  rewrite run_bind, run_bind.
  destruct (configure_ioloop raises monotonic_time q1) as [q2 [e|[]]];
    [discriminate Hr2|].
  simpl in Hc2. rewrite run_invoke, Hraises.
  rewrite (calls_load_and_run textwrap_fill resolve run_case standard_output).
  simpl. rewrite Hc2, Hc1, Hc0, Ho1, <- !app_assoc. reflexivity.
Qed.

Lemma configuration_calls_in_order_witness :
  let argv := [set_ioloop_time_monotonic true; set_httpserver "h";
               set_ioloop "a"; set_locale "C"; set_ioloop "b"] in
  (∀ c, Examples.raises c = None) ∧
  (∀ values, set_debug_gc values ∉ argv) ∧
  (ioloop_time_monotonic (resolved defaults argv) = true
   → is_Some (Some (Callable "time.monotonic"))) ∧
  calls (fst (main Examples.raises (Some (Callable "time.monotonic"))
                Examples.gc_attribute Examples.fill 50
                Examples.resolve_but_one Examples.run_case
                Examples.standard_output argv Examples.p0))
    = [Logger_setLevel "tornado.access" 50;
       HTTPServer_configure "h";
       locale_setlocale "C";
       IOLoop_configure (Some "b") (Some (Callable "time.monotonic"));
       Handler_addFilter].
Proof.
  cbv zeta.
  match goal with |- ?A ∧ ?B ∧ ?C ∧ _ =>
    assert (H1 : A) by reflexivity;
    assert (H2 : B)
      by (intros values H;
          repeat (apply elem_of_cons in H as [H|H]; [discriminate H|]);
          destruct (proj1 (elem_of_nil _) H));
    assert (H3 : C) by (intros _; by eexists)
  end.
  split; [exact H1|]. split; [exact H2|]. split; [exact H3|].
  rewrite (configuration_calls_in_order Examples.raises
             (Some (Callable "time.monotonic")) Examples.gc_attribute
             Examples.fill 50 Examples.resolve_but_one Examples.run_case
             Examples.standard_output _ Examples.p0 H1 H2 H3).
  reflexivity.
Defined.

(** ** What a run may tell the HTTP client *)

(** [only_calls P m]: whatever [m] does, also when it raises, it only adds
    to the list of calls, and every call it adds satisfies [P]. *)
Definition only_calls {A} (P : call → Prop) (m : M A) : Prop :=
  ∀ p, ∃ new, calls (fst (m p)) = calls p ++ new ∧ Forall P new.

(** What a configuration of the HTTP client must look like in a run with
    the command line [argv]: the defaults are [allow_ipv6 = False] and
    nothing else, and the class is one that the command line names. *)
Definition httpclient_call_ok (argv : list setting) (c : call) : Prop :=
  match c with
  | AsyncHTTPClient_configure impl defaults =>
      defaults = {[ "allow_ipv6" := false ]} ∧ set_httpclient impl ∈ argv
  | _ => True
  end.

Lemma only_calls_keeps {A} (P : call → Prop) (m : M A) :
  keeps calls m → only_calls P m.
Proof. intros Hm p. exists []. by rewrite app_nil_r, (Hm p). Qed.

Lemma only_calls_bind {A B} (P : call → Prop) (m : M A) (k : A → M B) :
  only_calls P m → (∀ a, only_calls P (k a)) → only_calls P (m ≫= k).
Proof.
  intros Hm Hk p. rewrite run_bind. destruct (Hm p) as (new & Hc & HP).
  destruct (m p) as [p1 [e|a]]; simpl in Hc; [by exists new|].
  destruct (Hk a p1) as (new' & Hc' & HP'). exists (new ++ new'). split.
  - by rewrite Hc', Hc, app_assoc.
  - by apply Forall_app.
Qed.

Lemma only_calls_invoke (raises : call → option exn) (P : call → Prop)
    (c : call) :
  P c → only_calls P (invoke raises c).
Proof.
  intros Hc p. exists [c]. rewrite run_invoke. split; [reflexivity|].
  by apply Forall_singleton.
Qed.

Lemma calls_set_options o : keeps calls (set_options o).
Proof. intros p. reflexivity. Qed.
#[global] Hint Resolve calls_set_options : keeps.

Section HttpClient.
Variable raises : call → option exn.
Variable monotonic_time : option callable.
Variable gc_attribute : string → option attr.
Variable argv : list setting.

Abbreviation ok := (httpclient_call_ok argv).

Lemma only_calls_callback x :
  x ∈ argv → only_calls ok (callback raises gc_attribute x).
Proof.
  intros Hx. destruct x; simpl;
    try (apply only_calls_invoke; exact I);
    try solve [apply only_calls_keeps; apply keeps_ret].
  - unfold httpclient_callback. apply only_calls_invoke. by split.
  - unfold debug_gc_callback, getattr_gc. destruct values as [|v rest].
    + apply only_calls_keeps, keeps_raise.
    + apply only_calls_bind; [apply only_calls_keeps; keeps|]. intros first.
      apply only_calls_bind;
        [apply only_calls_keeps, keeps_reduce_or_|].
      intros flags. apply only_calls_invoke. exact I.
Qed.

Lemma only_calls_parse_args rest :
  (∀ x, x ∈ rest → x ∈ argv) →
  only_calls ok (parse_args raises gc_attribute rest).
Proof.
  induction rest as [|x rest IH]; intros Hsub; simpl.
  - apply only_calls_keeps. keeps.
  - apply only_calls_bind; [apply only_calls_keeps; keeps|]. intros o.
    apply only_calls_bind; [apply only_calls_keeps; keeps|]. intros [].
    apply only_calls_bind;
      [apply only_calls_callback, Hsub, list_elem_of_here|]. intros [].
    apply IH. intros y Hy. by apply Hsub, list_elem_of_further.
Qed.

Lemma only_calls_configure_ioloop :
  only_calls ok (configure_ioloop raises monotonic_time).
Proof.
  unfold configure_ioloop.
  apply only_calls_bind; [apply only_calls_keeps; keeps|]. intros o.
  apply only_calls_bind.
  - apply only_calls_keeps. keeps.
  - intros kwargs. destruct (_ || _);
      [apply only_calls_invoke; exact I | apply only_calls_keeps; keeps].
Qed.

Lemma only_calls_session textwrap_fill resolve run_case standard_output :
  only_calls ok
    (tornado_testing_main raises monotonic_time gc_attribute textwrap_fill
       resolve run_case standard_output argv).
Proof.
  unfold tornado_testing_main, run_parse_callbacks.
  apply only_calls_bind; [by apply only_calls_parse_args|]. intros [].
  apply only_calls_bind.
  - apply only_calls_bind; [apply only_calls_configure_ioloop|]. intros [].
    apply only_calls_invoke. exact I.
  - intros []. apply only_calls_keeps, calls_load_and_run.
Qed.
End HttpClient.

(** X12.  The callback of [httpclient] makes one call,
    [AsyncHTTPClient.configure] with the string given and with defaults that
    hold [allow_ipv6 = False] and nothing else.  In a whole run, whatever the
    command line and whatever raises along the way, [main] only adds to the
    calls made, and every configuration of the HTTP client that it adds has
    exactly these defaults, for a class named by an [httpclient] option of
    the command line: a run never configures the client in any other way,
    and not at all when that option is absent.  When no call raises and no
    [debug_gc] option is given, each [httpclient] option of the command line
    does lead to that call. *)
Theorem httpclient_configured_only_without_ipv6 (raises : call → option exn)
    (monotonic_time : option callable)
    (gc_attribute : string → option attr) (textwrap_fill : string → string)
    (CRITICAL : Z) (resolve : string → option (list string))
    (run_case : string → outcome) (standard_output : TestResult → list string)
    (argv : list setting) (p : process) :
  let after :=
    calls (fst (main raises monotonic_time gc_attribute textwrap_fill CRITICAL
                  resolve run_case standard_output argv p)) in
  (∀ s q,
     calls (fst (callback raises gc_attribute (set_httpclient s) q))
       = calls q ++ [AsyncHTTPClient_configure s {[ "allow_ipv6" := false ]}]) ∧
  (∃ new,
     after = calls p ++ new ∧
     (∀ impl defaults, AsyncHTTPClient_configure impl defaults ∈ new →
        defaults = {[ "allow_ipv6" := false ]} ∧
        defaults !! "allow_ipv6" = Some false ∧
        set_httpclient impl ∈ argv) ∧
     ((∀ s, set_httpclient s ∉ argv) →
      ∀ impl defaults, AsyncHTTPClient_configure impl defaults ∉ new)) ∧
  ((∀ c, raises c = None) → (∀ values, set_debug_gc values ∉ argv) →
   ∀ s, set_httpclient s ∈ argv →
     AsyncHTTPClient_configure s {[ "allow_ipv6" := false ]} ∈ after).
Proof.
  intros after. subst after. split; [|split].
  - intros s q. simpl. unfold httpclient_callback. by rewrite run_invoke.
  - rewrite main_run.
    set (q := fst (set_filters _ p)).
    assert (Hq : calls q = calls p) by reflexivity. clearbody q.
    assert (Hmain : only_calls (httpclient_call_ok argv)
              (invoke raises (Logger_setLevel "tornado.access" CRITICAL);;
               set_options defaults;;
               tornado_testing_main raises monotonic_time gc_attribute
                 textwrap_fill resolve run_case standard_output argv)).
    { apply only_calls_bind; [apply only_calls_invoke; exact I|]. intros [].
      apply only_calls_bind; [apply only_calls_keeps; keeps|]. intros [].
      apply only_calls_session. }
    destruct (Hmain q) as (new & Hnew & Hok). exists new.
    split; [by rewrite Hnew, Hq|].
    assert (Hall : ∀ impl d, AsyncHTTPClient_configure impl d ∈ new →
              d = {[ "allow_ipv6" := false ]} ∧ set_httpclient impl ∈ argv).
    { intros impl d Hin. rewrite Forall_forall in Hok. exact (Hok _ Hin). }
    split.
    + intros impl d Hin. destruct (Hall impl d Hin) as [-> Hs].
      split; [reflexivity|]. split; [apply lookup_singleton_eq | exact Hs].
    + intros Hnone impl d Hin. destruct (Hall impl d Hin) as [_ Hs].
      exact (Hnone impl Hs).
  - intros Hraises Hargv s Hs.
    rewrite main_run.
    set (q := fst (set_filters _ p)). clearbody q.
    rewrite run_bind, run_invoke, Hraises, run_bind.
    unfold set_options, log_call. cbn [fst].
    match goal with |- _ ∈ calls (fst (tornado_testing_main _ _ _ _ _ _ _ _ ?q')) =>
      generalize q'
    end.
    intros q0. unfold tornado_testing_main.
    destruct (parse_args_trace raises gc_attribute Hraises argv q0 Hargv)
      as (Hr1 & Hc1 & _).
    rewrite run_bind.
    destruct (parse_args raises gc_attribute argv q0) as [q1 [e|[]]];
      [discriminate Hr1|].
    simpl in Hc1.
    assert (Hrest : only_calls (λ _, True)
              (run_parse_callbacks raises monotonic_time;;
               suite ← all resolve;
               run textwrap_fill
                 (TextTestRunner_run run_case standard_output) suite)).
    { unfold run_parse_callbacks.
      apply only_calls_bind.
      - apply only_calls_bind.
        + intros q2.
          destruct (only_calls_configure_ioloop raises monotonic_time argv q2)
            as (new & Hnew & _).
          exists new. split; [exact Hnew|]. by apply Forall_true.
        + intros []. by apply only_calls_invoke.
      - intros []. apply only_calls_keeps, calls_load_and_run. }
    destruct (Hrest q1) as (new & Hnew & _).
    cbv beta iota. rewrite Hnew, Hc1.
    apply elem_of_app. left. apply elem_of_app. right.
    apply list_elem_of_join. exists (callback_call (set_httpclient s)).
    split; [apply list_elem_of_here|].
    apply list_elem_of_fmap. by exists (set_httpclient s).
Qed.

(** Three [httpclient] options on one command line, the second of which is
    refused by the client: the first two calls were made with the defaults
    above, the third option is never reached, and nothing else was told to
    the client. *)
Example httpclient_refused_run :
  let refuses c :=
    match c with
    | AsyncHTTPClient_configure "second" _ => Some (LoadError "second")
    | _ => None
    end in
  main refuses None Examples.gc_attribute Examples.fill 50 Examples.resolve
    Examples.run_case Examples.standard_output
    [set_httpclient "first"; set_httpclient "second"; set_httpclient "third"]
    Examples.p0
  = ({| filters := main_filters;
        options := resolved defaults
                     [set_httpclient "first"; set_httpclient "second"];
        calls := [Logger_setLevel "tornado.access" 50;
                  AsyncHTTPClient_configure "first" {[ "allow_ipv6" := false ]};
                  AsyncHTTPClient_configure "second" {[ "allow_ipv6" := false ]}];
        executed := []; stream := [] |},
     inl (LoadError "second")).
Proof. vm_compute. reflexivity. Qed.
